(** * GMediaRender logging facility (src/logging.c)

    A shallow embedding of [logging.c]: the file's static variables and the
    part of the operating system it talks to (descriptor table, files,
    terminals, the clock) are an explicit state, every C function is a
    function on that state, and the properties of the logging facility are
    theorems about these functions. *)

From Stdlib Require Import ZArith Ascii String DecimalString.
From Stdlib Require DecimalFacts DecimalPos.
From stdpp Require Import base option list gmap strings.

Local Open Scope Z_scope.

(** ** Characters and byte strings *)

(** The C escape ['\n']. *)
Definition newline : ascii := Ascii.ascii_of_nat 10.
(** The C escape ['\033'], which starts every ANSI escape sequence. *)
Definition ESC : ascii := Ascii.ascii_of_nat 27.

Definition nl : string := String newline EmptyString.

Definition bytes (s : string) : list ascii := list_ascii_of_string s.

(** [s[len-1]], when [len > 0]. *)
Definition last_byte (s : string) : option ascii := last (bytes s).

(** How many ['\n'] bytes a buffer ends with. *)
Fixpoint leading (c : ascii) (l : list ascii) : nat :=
  match l with
  | x :: r => if Ascii.eqb x c then S (leading c r) else O
  | [] => O
  end.

Definition trailing_newlines (s : string) : nat := leading newline (reverse (bytes s)).

(** A buffer without the byte ESC holds no ANSI escape sequence. *)
Definition esc_free (s : string) : bool :=
  forallb (fun c => negb (Ascii.eqb c ESC)) (bytes s).

(** ** printf conversions used by the file *)

(** [%d] *)
Definition fmt_d (z : Z) : string := NilZero.string_of_int (Z.to_int z).

(** [%02d]: zero padding up to width two; a sign counts for the width, so a
    negative number is never padded. *)
Definition fmt_02d (z : Z) : string :=
  let d := fmt_d z in
  if (String.length d <? 2)%nat then String "0" d else d.

(** ** The operating system *)

Definition STDERR_FILENO : Z := 2.
Definition ENOENT : Z := 2.
Definition EBADF : Z := 9.
Definition EINVAL : Z := 22.
Definition SIGSEGV : Z := 11.

(** What a path names: a regular file with its content, a terminal device
    with what was written to it, or something [open] refuses with an error
    number (a directory, a file of another user, a missing directory). *)
Inductive node : Type :=
| Regular (data : string)
| Terminal (shown : string)
| Denied (errno : Z).

(** The descriptor table maps a descriptor (its index) to the path it was
    opened on; the clock is what [gettimeofday] stores in [tv_sec]; the
    signal is the one that ended the process, if one did. *)
Record World : Type := mkWorld {
  w_fs : gmap string node;
  w_fds : list (option string);
  w_now : Z;
  w_signal : option Z
}.

(** The result of a system call: a value, or -1 with [errno] set. *)
Inductive sysret : Type :=
| Ok (v : Z)
| Err (errno : Z).

Definition ret_int (r : sysret) : Z :=
  match r with
  | Ok v => v
  | Err _ => -1
  end.

(** The value of [errno] after the call. *)
Definition ret_errno (r : sysret) : Z :=
  match r with
  | Ok _ => 0
  | Err e => e
  end.

Definition fd_path (w : World) (fd : Z) : option string :=
  if fd <? 0 then None else mjoin (w_fds w !! Z.to_nat fd).

Definition fd_node (w : World) (fd : Z) : option (string * node) :=
  match fd_path w fd with
  | Some p => match w_fs w !! p with
              | Some n => Some (p, n)
              | None => None
              end
  | None => None
  end.

(** The lowest unused descriptor is handed out. *)
Fixpoint alloc_fd (fds : list (option string)) (p : string) : nat * list (option string) :=
  match fds with
  | [] => (O, [Some p])
  | None :: r => (O, Some p :: r)
  | Some q :: r => let '(i, r') := alloc_fd r p in (S i, Some q :: r')
  end.

(** [open(path, O_CREAT|O_APPEND|O_WRONLY, 0644)]: a missing file is created
    empty; an existing file or terminal is opened as it is. *)
Definition sys_open (path : string) (w : World) : sysret * World :=
  if String.eqb path EmptyString then (Err ENOENT, w)
  else
    match w_fs w !! path with
    | Some (Denied e) => (Err e, w)
    | Some _ =>
        let '(i, fds) := alloc_fd (w_fds w) path in
        (Ok (Z.of_nat i), mkWorld (w_fs w) fds (w_now w) (w_signal w))
    | None =>
        let '(i, fds) := alloc_fd (w_fds w) path in
        (Ok (Z.of_nat i),
         mkWorld (<[path := Regular EmptyString]> (w_fs w)) fds (w_now w) (w_signal w))
    end.

(** [write(fd, buf, len)] on a descriptor opened with [O_APPEND]: the bytes
    go to the end of the file. A descriptor that is not open fails with
    [EBADF] and writes nothing. *)
Definition sys_write (fd : Z) (buf : string) (w : World) : sysret * World :=
  match fd_node w fd with
  | Some (p, Regular d) =>
      (Ok (Z.of_nat (String.length buf)),
       mkWorld (<[p := Regular (d +:+ buf)]> (w_fs w)) (w_fds w) (w_now w) (w_signal w))
  | Some (p, Terminal d) =>
      (Ok (Z.of_nat (String.length buf)),
       mkWorld (<[p := Terminal (d +:+ buf)]> (w_fs w)) (w_fds w) (w_now w) (w_signal w))
  | _ => (Err EBADF, w)
  end.

(** [writev(fd, iov, iovcnt)]: the parts are written as one block. *)
Definition sys_writev (fd : Z) (iov : list string) (iovcnt : nat) (w : World) : sysret * World :=
  sys_write fd (String.concat EmptyString (take iovcnt iov)) w.

(** [ftruncate(fd, 0)]: a regular file loses its content, a terminal cannot
    be truncated, a descriptor that is not open fails with [EBADF]. *)
Definition sys_ftruncate0 (fd : Z) (w : World) : sysret * World :=
  match fd_node w fd with
  | Some (p, Regular _) =>
      (Ok 0, mkWorld (<[p := Regular EmptyString]> (w_fs w)) (w_fds w) (w_now w) (w_signal w))
  | Some (_, Terminal _) => (Err EINVAL, w)
  | _ => (Err EBADF, w)
  end.

(** [isatty(fd)]: 1 on a terminal, 0 otherwise (also for a bad descriptor). *)
Definition isatty (fd : Z) (w : World) : Z :=
  match fd_node w fd with
  | Some (_, Terminal _) => 1
  | _ => 0
  end.

(** [gettimeofday(&now, NULL)], the seconds. *)
Definition gettimeofday (w : World) : Z := w_now w.

(** An invalid memory access: the kernel ends the process with the signal.
    Files, descriptors and clock are as they were. *)
Definition fault (sig : Z) (w : World) : World :=
  mkWorld (w_fs w) (w_fds w) (w_now w) (Some sig).

(** A signal has ended the process. *)
Definition terminated (w : World) : bool :=
  match w_signal w with
  | Some _ => true
  | None => false
  end.

(** [struct tm], the fields that ["%F %T"] reads: the year counted from
    1900 and the month from 0. *)
Record tm : Type := mktm {
  tm_sec : Z;
  tm_min : Z;
  tm_hour : Z;
  tm_mday : Z;
  tm_mon : Z;
  tm_year : Z
}.

(** The C library's rendering of time and of error numbers. The exact text of
    [%F] outside the years 1000 to 9999, the time zone and the error messages
    are the platform's; the logging code only passes them on. *)
Class Libc : Type := {
  (** [gmtime(&t)]: the broken-down UTC time, or NULL ([None]) for a time
      whose year an [int] cannot hold. *)
  gmtime : Z -> option tm;
  (** [strftime(buf, n, "%F %T", timeinfo)] for a [timeinfo] that is not
      NULL. *)
  strftime_FT : tm -> string;
  (** [strftime(buf, n, "%F %T", localtime_r(&t, &tm))] *)
  strftime_localtime : Z -> string;
  strerror : Z -> string
}.

(** A C library for a host in the UTC zone, used to run the model on
    concrete inputs: the proleptic Gregorian calendar, the year written with
    at least four digits. *)
Module UtcLibc.

Definition pad4 (z : Z) : string :=
  let d := fmt_d z in
  if 0 <=? z then
    match String.length d with
    | 1%nat => "000" +:+ d
    | 2%nat => "00" +:+ d
    | 3%nat => "0" +:+ d
    | _ => d
    end
  else d.

(** Year, month and day of the day number [days] counted from 1970-01-01. *)
Definition civil_from_days (days : Z) : Z * Z * Z :=
  let z := days + 719468 in
  let era := z / 146097 in
  let doe := z - era * 146097 in
  let yoe := (doe - doe / 1460 + doe / 36524 - doe / 146096) / 365 in
  let doy := doe - (365 * yoe + yoe / 4 - yoe / 100) in
  let mp := (5 * doy + 2) / 153 in
  let d := doy - (153 * mp + 2) / 5 + 1 in
  let m := if mp <? 10 then mp + 3 else mp - 9 in
  let y := yoe + era * 400 + (if m <=? 2 then 1 else 0) in
  (y, m, d).

(** ["%F %T"] of the broken-down UTC time. *)
Definition format_FT (t : Z) : string :=
  let '(y, m, d) := civil_from_days (t / 86400) in
  let sod := t mod 86400 in
  pad4 y +:+ "-" +:+ fmt_02d m +:+ "-" +:+ fmt_02d d +:+ " " +:+
  fmt_02d (sod / 3600) +:+ ":" +:+ fmt_02d (sod / 60 mod 60) +:+ ":" +:+ fmt_02d (sod mod 60).

Definition error_text (e : Z) : string :=
  if e =? 2 then "No such file or directory"
  else if e =? 13 then "Permission denied"
  else if e =? 21 then "Is a directory"
  else "Unknown error " +:+ fmt_d e.

(** [gmtime]: the calendar fields of [t], unless the year counted from
    1900 does not fit an [int]. *)
Definition broken_down (t : Z) : option tm :=
  let '(y, m, d) := civil_from_days (t / 86400) in
  let sod := t mod 86400 in
  if (- 2 ^ 31 <=? y - 1900) && (y - 1900 <=? 2 ^ 31 - 1)
  then Some (mktm (sod mod 60) (sod / 60 mod 60) (sod / 3600) d (m - 1) (y - 1900))
  else None.

(** ["%F %T"] of a broken-down time. *)
Definition format_tm (t : tm) : string :=
  pad4 (tm_year t + 1900) +:+ "-" +:+ fmt_02d (tm_mon t + 1) +:+ "-" +:+
  fmt_02d (tm_mday t) +:+ " " +:+
  fmt_02d (tm_hour t) +:+ ":" +:+ fmt_02d (tm_min t) +:+ ":" +:+ fmt_02d (tm_sec t).

#[export] Instance libc : Libc := {|
  gmtime := broken_down;
  strftime_FT := format_tm;
  strftime_localtime := format_FT;
  strerror := error_text
|}.

End UtcLibc.

(** ** The file's variables *)

Definition kInfoHighlight : string := String ESC "[1mINFO  ".
Definition kErrorHighlight : string := String ESC "[1m" +:+ String ESC "[31mERROR ".
Definition kTermReset : string := String ESC "[0m".

(** The static variables of logging.c, the integer [debug_level] that the
    file reads but another part of the program owns, and the operating
    system. *)
Record State : Type := mkState {
  log_fd : Z;
  last_played_fd : Z;
  playback_fd : Z;
  enable_color : Z;
  info_markup_start_ : string;
  error_markup_start_ : string;
  markup_end_ : string;
  debug_level : Z;
  os : World
}.

(** The state at program start: the initialisers of the static variables. *)
Definition initial (level : Z) (w : World) : State :=
  {| log_fd := -1;
     last_played_fd := -1;
     playback_fd := -1;
     enable_color := 0;
     info_markup_start_ := "INFO  ";
     error_markup_start_ := "ERROR ";
     markup_end_ := EmptyString;
     debug_level := level;
     os := w |}.

Definition set_log_fd (v : Z) (s : State) : State :=
  mkState v (last_played_fd s) (playback_fd s) (enable_color s)
    (info_markup_start_ s) (error_markup_start_ s) (markup_end_ s) (debug_level s) (os s).

Definition set_last_played_fd (v : Z) (s : State) : State :=
  mkState (log_fd s) v (playback_fd s) (enable_color s)
    (info_markup_start_ s) (error_markup_start_ s) (markup_end_ s) (debug_level s) (os s).

Definition set_playback_fd (v : Z) (s : State) : State :=
  mkState (log_fd s) (last_played_fd s) v (enable_color s)
    (info_markup_start_ s) (error_markup_start_ s) (markup_end_ s) (debug_level s) (os s).

Definition set_enable_color (v : Z) (s : State) : State :=
  mkState (log_fd s) (last_played_fd s) (playback_fd s) v
    (info_markup_start_ s) (error_markup_start_ s) (markup_end_ s) (debug_level s) (os s).

Definition set_markup (info error reset : string) (s : State) : State :=
  mkState (log_fd s) (last_played_fd s) (playback_fd s) (enable_color s)
    info error reset (debug_level s) (os s).

Definition set_os (w : World) (s : State) : State :=
  mkState (log_fd s) (last_played_fd s) (playback_fd s) (enable_color s)
    (info_markup_start_ s) (error_markup_start_ s) (markup_end_ s) (debug_level s) w.

(** A system call made by the program: its result, and the state with the
    operating system after the call. *)
Definition syscall (c : World -> sysret * World) (s : State) : sysret * State :=
  let '(r, w) := c (os s) in (r, set_os w s).

(** The calls whose result the code does not look at. *)
Definition call_write (fd : Z) (buf : string) (s : State) : State :=
  snd (syscall (sys_write fd buf) s).

Definition call_writev (fd : Z) (iov : list string) (iovcnt : nat) (s : State) : State :=
  snd (syscall (sys_writev fd iov iovcnt) s).

Definition call_ftruncate (fd : Z) (s : State) : State :=
  snd (syscall (sys_ftruncate0 fd) s).

(** The program reads through a NULL pointer. *)
Definition segfault (s : State) : State := set_os (fault SIGSEGV (os s)) s.

(** Control flow of a function body: fall through to the next statement, or
    [return]. *)
Inductive flow : Type :=
| Next (s : State)
| Return (s : State).

Definition flow_bind (f : flow) (k : State -> flow) : flow :=
  match f with
  | Next s => k s
  | Return s => Return s
  end.

Definition flow_end (f : flow) : State :=
  match f with
  | Next s => s
  | Return s => s
  end.

Notation "'step' s <- f 'in' k" := (flow_bind f (fun s => k))
  (at level 10, s name, f at level 100, k at level 200, only parsing).

Section Logging.

Context {libc : Libc}.

(** [perror(msg)] after a system call that failed with [errno]. *)
Definition perror (msg : string) (errno : Z) (s : State) : State :=
  call_write STDERR_FILENO (msg +:+ ": " +:+ strerror errno +:+ nl) s.

(** The body of one [if (name != NULL) { fd = open(...); if (fd < 0) {
    perror(...); return; } }] block of [Log_init]. *)
Definition open_or_return (name : option string) (store : Z -> State -> State)
    (msg : string) (s : State) : flow :=
  match name with
  | None => Next s
  | Some path =>
      let '(r, s1) := syscall (sys_open path) s in
      let fd := ret_int r in
      let s2 := store fd s1 in
      if fd <? 0 then Return (perror msg (ret_errno r) s2) else Next s2
  end.

Definition Log_init (filename last_played_file playback_time_file : option string)
    (s : State) : State :=
  flow_end (
    step s1 <- open_or_return filename set_log_fd "Cannot open logfile" s in
    step s2 <- open_or_return last_played_file set_last_played_fd "Cannot open last played file" s1 in
    step s3 <- open_or_return playback_time_file set_playback_fd "Cannot open playback time file" s2 in
    let s4 := set_enable_color (isatty (log_fd s3) (os s3)) s3 in
    if enable_color s4 =? 0 then Next s4
    else Next (set_markup kInfoHighlight kErrorHighlight kTermReset s4)).

Definition Log_color_allowed (s : State) : Z := enable_color s.
Definition Log_info_enabled (s : State) : Z := if 0 <=? log_fd s then 1 else 0.
Definition Log_error_enabled (s : State) : Z := 1.

(** What [asprintf] renders from ["%s[%s | %s]%s "]. *)
Definition Log_prefix (markup_start markup_end fmt_buf category : string) : string :=
  markup_start +:+ "[" +:+ fmt_buf +:+ " | " +:+ category +:+ "]" +:+ markup_end +:+ " ".

(** The three [iovec] parts of a log line; [message] is what [vasprintf]
    rendered from the format and its arguments. *)
Definition Log_parts (markup_start markup_end fmt_buf category message : string) : list string :=
  [ Log_prefix markup_start markup_end fmt_buf category;
    message;
    nl ].

Definition already_newline (message : string) : bool :=
  (0 <? String.length message)%nat && bool_decide (last_byte message = Some newline).

(** The bytes one call of [Log_internal] hands to [writev]. *)
Definition Log_line (markup_start markup_end fmt_buf category message : string) : string :=
  String.concat EmptyString
    (take (if already_newline message then 2%nat else 3%nat)
          (Log_parts markup_start markup_end fmt_buf category message)).

Definition Log_internal (fd : Z) (markup_start category message : string) (s : State) : State :=
  let now := gettimeofday (os s) in
  let fmt_buf := strftime_localtime now in
  let parts := Log_parts markup_start (markup_end_ s) fmt_buf category message in
  call_writev fd parts (if already_newline message then 2%nat else 3%nat) s.

Definition Log_info (category message : string) (s : State) : State :=
  if log_fd s <? 0 then s
  else Log_internal (log_fd s) (info_markup_start_ s) category message s.

Definition Log_error (category message : string) (s : State) : State :=
  Log_internal (if log_fd s <? 0 then STDERR_FILENO else log_fd s)
    (error_markup_start_ s) category message s.

Definition print_log (level : Z) (category message : string) (s : State) : State :=
  if debug_level s <? level then s
  else Log_internal (if log_fd s <? 0 then STDERR_FILENO else log_fd s)
         (info_markup_start_ s) category message s.

(** The result of [gmtime] goes to [strftime] unchecked: with NULL,
    [strftime] reads through it and the process ends there, before
    [ftruncate] and [write]. *)
Definition log_last_playback (playstart : Z) (s : State) : State :=
  match gmtime playstart with
  | None => segfault s
  | Some timeinfo =>
      let timestring := strftime_FT timeinfo in
      let buffer := "UPNP_LAST_PLAYED='" +:+ timestring +:+ "'" +:+ nl in
      let s1 := call_ftruncate (last_played_fd s) s in
      call_write (last_played_fd s1) buffer s1
  end.

(** [difftime(a, b)]: the difference in seconds, exact as a [double] as
    long as it is below 2^53 in size. *)
Definition difftime (time1 time0 : Z) : Z := time1 - time0.

Definition INT_MIN : Z := - 2 ^ 31.
Definition INT_MAX : Z := 2 ^ 31 - 1.

(** [(int)d] for a whole [double]: the value itself when an [int] can hold
    it. C leaves the other case undefined; x86-64 yields [INT_MIN]. *)
Definition int_of_double (d : Z) : Z :=
  if (INT_MIN <=? d) && (d <=? INT_MAX) then d else INT_MIN.

Definition log_playback_duration (playstart playend : Z) (s : State) : State :=
  let rawSeconds := int_of_double (difftime playend playstart) in
  let elapsedHours := Z.quot rawSeconds 3600 in
  let elapsedMin := Z.rem (Z.quot rawSeconds 60) 60 in
  let elapsedSec := Z.rem rawSeconds 60 in
  let buffer := "UPNP_TOTAL=" +:+ fmt_d rawSeconds +:+ nl in
  let s1 := call_ftruncate (playback_fd s) s in
  let s2 := call_write (playback_fd s1) buffer s1 in
  print_log 0 "transport"
    ("Total playing time " +:+ fmt_02d elapsedHours +:+ ":" +:+ fmt_02d elapsedMin +:+ ":" +:+
     fmt_02d elapsedSec +:+ nl) s2.

(** The operations a caller can invoke once [Log_init] has run. *)
Inductive call : Type :=
| Call_Log_info (category message : string)
| Call_Log_error (category message : string)
| Call_print_log (level : Z) (category message : string)
| Call_log_last_playback (playstart : Z)
| Call_log_playback_duration (playstart playend : Z).

(** The function a call names, run in [s]. *)
Definition invoke (c : call) (s : State) : State :=
  match c with
  | Call_Log_info category message => Log_info category message s
  | Call_Log_error category message => Log_error category message s
  | Call_print_log level category message => print_log level category message s
  | Call_log_last_playback playstart => log_last_playback playstart s
  | Call_log_playback_duration playstart playend => log_playback_duration playstart playend s
  end.

(** The caller makes the call, unless a signal has ended the process: then
    nothing runs any more. *)
Definition perform (c : call) (s : State) : State :=
  if terminated (os s) then s else invoke c s.

Definition perform_all (cs : list call) (s : State) : State :=
  foldl (fun s c => perform c s) s cs.

(** ** Observations *)

(** The content behind a descriptor: the bytes of the file, or the bytes a
    terminal has shown. *)
Definition fd_data (fd : Z) (s : State) : option string :=
  match fd_node (os s) fd with
  | Some (_, Regular d) => Some d
  | Some (_, Terminal d) => Some d
  | _ => None
  end.

(** [open] refuses the path. *)
Definition open_fails (path : string) (w : World) : bool :=
  match fst (sys_open path w) with
  | Err _ => true
  | Ok _ => false
  end.

(** A destination was asked for and could not be opened. *)
Definition attempt_fails (name : option string) (w : World) : bool :=
  match name with
  | Some path => open_fails path w
  | None => false
  end.

(** A destination was asked for and can be opened. *)
Definition attempt_succeeds (name : option string) (w : World) : bool :=
  match name with
  | Some path => negb (open_fails path w)
  | None => false
  end.

End Logging.

(** Sample operating systems to run the model on: a process started in the
    terminal /dev/pts/0, a second terminal /dev/tty1, and a path that cannot
    be opened for writing. *)
Module Sample.

#[local] Existing Instance UtcLibc.libc.

Definition files : gmap string node :=
  <["/dev/pts/0" := Terminal EmptyString]>
    (<["/dev/tty1" := Terminal EmptyString]>
       (<["/proc/version" := Denied 13]> ∅)).

Definition world : World :=
  mkWorld files [Some "/dev/pts/0"; Some "/dev/pts/0"; Some "/dev/pts/0"] 1700000000 None.

(** All three destinations are files. *)
Definition all_files : State :=
  Log_init (Some "/var/log/gmrender.log") (Some "/run/last_played") (Some "/run/playback")
    (initial 0 world).

(** Only the general log is asked for. *)
Definition log_only : State :=
  Log_init (Some "/var/log/gmrender.log") None None (initial 0 world).

(** Nothing is asked for. *)
Definition nothing : State := Log_init None None None (initial 0 world).

(** The general log is the terminal /dev/tty1 and the last-played path is
    refused. *)
Definition terminal_log : State :=
  Log_init (Some "/dev/tty1") (Some "/proc/version") None (initial 0 world).

End Sample.

(** The color flag and the three markup strings. *)
Definition markup (s : State) : Z * string * string * string :=
  (enable_color s, info_markup_start_ s, error_markup_start_ s, markup_end_ s).

Definition plain : Z * string * string * string :=
  (0, "INFO  ", "ERROR ", EmptyString).

Definition highlighted : Z * string * string * string :=
  (1, kInfoHighlight, kErrorHighlight, kTermReset).

(** The three descriptors the file keeps. *)
Definition descriptors (s : State) : Z * Z * Z :=
  (log_fd s, last_played_fd s, playback_fd s).

(** What [Log_init] leaves in a descriptor variable: -1 when no path was
    given, and a descriptor that refers to the path when one was opened. *)
Definition opened (name : option string) (fd : Z) (s : State) : Prop :=
  match name with
  | Some path => 0 <= fd /\ fd_path (os s) fd = Some path
  | None => fd = -1
  end.

Section Stated.

Context {libc : Libc}.

(** Independent destinations: every destination whose path was given and
    can be opened is configured after [Log_init], whatever happened to the
    other two. *)
Definition opens_independently (filename last_played_file playback_time_file : option string)
    (level : Z) (w : World) : Prop :=
  let s := Log_init filename last_played_file playback_time_file (initial level w) in
  (attempt_succeeds filename w = true -> 0 <= log_fd s) /\
  (attempt_succeeds last_played_file w = true -> 0 <= last_played_fd s) /\
  (attempt_succeeds playback_time_file w = true -> 0 <= playback_fd s).



End Stated.

(** Every descriptor open in [w] is open on the same path in [w']. *)
Definition keeps (w w' : World) : Prop :=
  forall fd q, fd_path w fd = Some q -> fd_path w' fd = Some q.

(** ** The system calls of an operation *)

(** One step that changes the operating system: a system call, or the
    access that ends the process. *)
Inductive effect : Type :=
| Write (fd : Z) (buf : string)
| Truncate (fd : Z)
| Segfault.

(** The descriptor of a system call; -1, which is no descriptor, for the
    invalid access. *)
Definition effect_fd (e : effect) : Z :=
  match e with
  | Write fd _ => fd
  | Truncate fd => fd
  | Segfault => -1
  end.

Definition apply_effect (s : State) (e : effect) : State :=
  match e with
  | Write fd buf => call_write fd buf s
  | Truncate fd => call_ftruncate fd s
  | Segfault => segfault s
  end.

Definition run_effects (es : list effect) (s : State) : State :=
  foldl apply_effect s es.

(** The bytes behind a path. *)
Definition path_data (q : string) (w : World) : option string :=
  match w_fs w !! q with
  | Some (Regular d) => Some d
  | Some (Terminal d) => Some d
  | _ => None
  end.

(** The playstart of the last [log_last_playback] among the calls, and the
    arguments of the last [log_playback_duration]. *)
Fixpoint last_played_call (cs : list call) : option Z :=
  match cs with
  | [] => None
  | c :: r =>
      match last_played_call r with
      | Some t => Some t
      | None => match c with
                | Call_log_last_playback playstart => Some playstart
                | _ => None
                end
      end
  end.

Fixpoint last_duration_call (cs : list call) : option (Z * Z) :=
  match cs with
  | [] => None
  | c :: r =>
      match last_duration_call r with
      | Some t => Some t
      | None => match c with
                | Call_log_playback_duration playstart playend => Some (playstart, playend)
                | _ => None
                end
      end
  end.

(** A descriptor variable holds -1, or a descriptor that was free in [w] and
    is open in [wc]. *)
Definition fresh_open (w wc : World) (fd : Z) : Prop :=
  fd = -1 \/ (0 <= fd /\ fd_path w fd = None /\ fd_path wc fd <> None).

(** Two descriptor variables do not hold the same descriptor. *)
Definition apart (a b : Z) : Prop := a = -1 \/ b = -1 \/ a <> b.

(** The clock is as in [w], every descriptor open in [w] is open on the same
    path, [open] refuses the same paths with the same error, every node of
    [w] is unchanged, and a node that [w] lacks is an empty regular file on
    one of the paths [names]. *)
Definition same_refusals (w wc : World) : Prop :=
  forall q, open_fails q wc = open_fails q w /\
            (open_fails q w = true -> fst (sys_open q wc) = fst (sys_open q w)).

Definition grown (names : list (option string)) (w wc : World) : Prop :=
  forall q, match w_fs w !! q with
            | Some n => w_fs wc !! q = Some n
            | None => w_fs wc !! q = None \/
                      (w_fs wc !! q = Some (Regular EmptyString) /\ In (Some q) names)
            end.

Definition extends_by (names : list (option string)) (w wc : World) : Prop :=
  w_now wc = w_now w /\
  (forall fd q, fd_path w fd = Some q -> fd_path wc fd = Some q) /\
  same_refusals w wc /\ grown names w wc.

(** The value of [errno] after the [open] of a destination that fails. *)
Definition open_errno (name : option string) (w : World) : Z :=
  match name with
  | Some path => ret_errno (fst (sys_open path w))
  | None => 0
  end.

(** The first destination, in the order of [Log_init], whose [open] fails,
    with the text [Log_init] hands to [perror] for it. *)
Definition first_failure (filename last_played_file playback_time_file : option string)
    (w : World) : option (string * option string) :=
  if attempt_fails filename w then Some ("Cannot open logfile", filename)
  else if attempt_fails last_played_file w
       then Some ("Cannot open last played file", last_played_file)
       else if attempt_fails playback_time_file w
            then Some ("Cannot open playback time file", playback_time_file)
            else None.

(** The three descriptor variables hold descriptors that were free in [w],
    are open now, and differ from each other. *)
Definition well_opened (w : World) (s : State) : Prop :=
  (forall fd q, fd_path w fd = Some q -> fd_path (os s) fd = Some q) /\
  fresh_open w (os s) (log_fd s) /\
  fresh_open w (os s) (last_played_fd s) /\
  fresh_open w (os s) (playback_fd s) /\
  apart (log_fd s) (last_played_fd s) /\
  apart (log_fd s) (playback_fd s) /\
  apart (last_played_fd s) (playback_fd s).

(** A descriptor variable holds -1 or a descriptor open on a file or a
    terminal, which accepts writes. *)
Definition usable (s : State) (fd : Z) : Prop :=
  fd = -1 \/ exists p, fd_path (os s) fd = Some p /\ is_Some (path_data p (os s)).

Definition all_usable (s : State) : Prop :=
  usable s (log_fd s) /\ usable s (last_played_fd s) /\ usable s (playback_fd s).

(** [fd] is the value of one of the three descriptor variables. *)
Definition holds (s : State) (fd : Z) : Prop :=
  fd = log_fd s \/ fd = last_played_fd s \/ fd = playback_fd s.

(** Nothing was opened behind the back of the variables: a descriptor that
    is open and was not open in [w] is the value of a descriptor variable,
    and a path that exists and did not exist in [w] is the path of such a
    descriptor. *)
Definition accounted (w : World) (s : State) : Prop :=
  (forall fd q, fd_path (os s) fd = Some q -> fd_path w fd = Some q \/ holds s fd) /\
  (forall q, w_fs w !! q = None -> w_fs (os s) !! q <> None ->
             exists fd, holds s fd /\ fd_path (os s) fd = Some q).

Section Records.

Context {libc : Libc}.

(** The descriptor [Log_error] and [print_log] write to. *)
Definition log_target (s : State) : Z :=
  if log_fd s <? 0 then STDERR_FILENO else log_fd s.

(** The line of the last-played file for a broken-down start time. *)
Definition last_played_record (timeinfo : tm) : string :=
  "UPNP_LAST_PLAYED='" +:+ strftime_FT timeinfo +:+ "'" +:+ nl.

(** The line of the playback-duration file for a start and an end. *)
Definition playback_record (playstart playend : Z) : string :=
  "UPNP_TOTAL=" +:+ fmt_d (int_of_double (difftime playend playstart)) +:+ nl.

(** The message [log_playback_duration] hands to [print_log]. *)
Definition playing_time_message (playstart playend : Z) : string :=
  let rawSeconds := int_of_double (difftime playend playstart) in
  "Total playing time " +:+ fmt_02d (Z.quot rawSeconds 3600) +:+ ":" +:+
  fmt_02d (Z.rem (Z.quot rawSeconds 60) 60) +:+ ":" +:+
  fmt_02d (Z.rem rawSeconds 60) +:+ nl.

(** The line an operation writes to the log in state [s]. *)
Definition log_line_in (s : State) (markup_start category message : string) : string :=
  Log_line markup_start (markup_end_ s) (strftime_localtime (gettimeofday (os s)))
    category message.

(** The system calls an operation makes, in order, when it runs. *)
Definition effects (c : call) (s : State) : list effect :=
  match c with
  | Call_Log_info category message =>
      if log_fd s <? 0 then []
      else [Write (log_fd s) (log_line_in s (info_markup_start_ s) category message)]
  | Call_Log_error category message =>
      [Write (log_target s) (log_line_in s (error_markup_start_ s) category message)]
  | Call_print_log level category message =>
      if debug_level s <? level then []
      else [Write (log_target s) (log_line_in s (info_markup_start_ s) category message)]
  | Call_log_last_playback playstart =>
      match gmtime playstart with
      | None => [Segfault]
      | Some timeinfo =>
          [Truncate (last_played_fd s); Write (last_played_fd s) (last_played_record timeinfo)]
      end
  | Call_log_playback_duration playstart playend =>
      [Truncate (playback_fd s); Write (playback_fd s) (playback_record playstart playend)] ++
      (if debug_level s <? 0 then []
       else [Write (log_target s)
               (log_line_in s (info_markup_start_ s) "transport"
                  (playing_time_message playstart playend))])
  end.

End Records.

Section StatedRecords.

Context {libc : Libc}.




End StatedRecords.

(** Two more sample states: the general log alone on the terminal
    /dev/tty1, and the last-played file on that terminal. *)
Module Terminals.

#[local] Existing Instance UtcLibc.libc.

Definition log_on_terminal : State :=
  Log_init (Some "/dev/tty1") None None (initial 0 Sample.world).

Definition record_on_terminal : State :=
  Log_init None (Some "/dev/tty1") None (initial 0 Sample.world).

(** A start, some logging, a second start and a finished playback. *)
Definition session : list call :=
  [ Call_log_last_playback 0;
    Call_Log_info "upnp" "started";
    Call_log_last_playback 1700000000;
    Call_Log_error "upnp" "no renderer";
    Call_log_playback_duration 100 3825 ].

End Terminals.

(** Samples at the edges: an initialization whose second destination is
    refused while a third is asked for, a process with a negative
    [debug_level], and a time whose year an [int] cannot hold. *)
Module Corners.

#[local] Existing Instance UtcLibc.libc.

Definition stopped : State :=
  Log_init (Some "/dev/tty1") (Some "/proc/version") (Some "/run/playback")
    (initial 0 Sample.world).



End Corners.

(** * Properties *)

(** ** Byte strings *)

Lemma string_app_cons (c : ascii) (a b : string) : String c a +:+ b = String c (a +:+ b).
Proof. reflexivity. Qed.

Lemma bytes_cons (c : ascii) (a : string) : bytes (String c a) = c :: bytes a.
Proof. reflexivity. Qed.

Lemma bytes_app (a b : string) : bytes (a +:+ b) = bytes a ++ bytes b.
Proof.
  induction a as [|c a IH]; [reflexivity|].
  rewrite string_app_cons, !bytes_cons, IH. reflexivity.
Qed.

Lemma string_app_assoc (a b c : string) : (a +:+ b) +:+ c = a +:+ (b +:+ c).
Proof.
  induction a as [|x a IH]; [reflexivity|].
  rewrite !string_app_cons. now rewrite IH.
Qed.

Lemma string_app_empty_r (a : string) : a +:+ EmptyString = a.
Proof.
  induction a as [|x a IH]; [reflexivity|].
  rewrite string_app_cons. now rewrite IH.
Qed.

Lemma leading_app_stop (c x : ascii) (l r : list ascii) :
  x <> c -> leading c (l ++ x :: r) = leading c l.
Proof.
  intros Hx. induction l as [|y l IH]; simpl.
  - destruct (Ascii.eqb_spec x c); [contradiction | reflexivity].
  - destruct (Ascii.eqb y c); [now rewrite IH | reflexivity].
Qed.

Lemma trailing_newlines_snoc_nl (a : string) :
  trailing_newlines (a +:+ nl) = S (trailing_newlines a).
Proof.
  unfold trailing_newlines. rewrite bytes_app. simpl.
  rewrite reverse_app. reflexivity.
Qed.

(** A buffer that ends with another byte than ['\n'] hides what came before
    it from the count. *)
Lemma trailing_newlines_after (p : string) (x : ascii) (m : string) :
  x <> newline ->
  trailing_newlines ((p +:+ String x EmptyString) +:+ m) = trailing_newlines m.
Proof.
  intros Hx. unfold trailing_newlines.
  rewrite !bytes_app, !reverse_app. simpl.
  now apply leading_app_stop.
Qed.

Lemma already_newline_true (m : string) :
  already_newline m = true -> (1 <= trailing_newlines m)%nat.
Proof.
  unfold already_newline, last_byte, trailing_newlines.
  intros [_ Hl%bool_decide_eq_true]%andb_true_iff.
  rewrite <- head_reverse in Hl.
  destruct (reverse (bytes m)) as [|c r]; [discriminate|].
  simpl in Hl. injection Hl as ->. simpl. lia.
Qed.

Lemma already_newline_false (m : string) :
  already_newline m = false -> trailing_newlines m = O.
Proof.
  unfold already_newline, last_byte, trailing_newlines. intros Hf.
  destruct m as [|c m]; [reflexivity|].
  assert (Hl : last (bytes (String c m)) <> Some newline)
    by (apply (proj1 (bool_decide_eq_false _)); exact Hf).
  rewrite <- head_reverse in Hl.
  destruct (reverse (bytes (String c m))) as [|y r]; [reflexivity|].
  simpl. destruct (Ascii.eqb_spec y newline) as [->|]; [now destruct Hl | reflexivity].
Qed.

Lemma esc_free_app (a b : string) : esc_free (a +:+ b) = esc_free a && esc_free b.
Proof. unfold esc_free. rewrite bytes_app. apply forallb_app. Qed.

(** ** The model at work *)

Example fmt_d_samples : (fmt_d 0, fmt_d 3725, fmt_d (-12)) = ("0", "3725", "-12").
Proof. reflexivity. Qed.

Example fmt_02d_samples :
  (fmt_02d 5, fmt_02d 25, fmt_02d 123, fmt_02d (-5)) = ("05", "25", "123", "-5").
Proof. reflexivity. Qed.

Example gmtime_samples :
  (UtcLibc.format_tm <$> UtcLibc.broken_down 0,
   UtcLibc.format_tm <$> UtcLibc.broken_down 1700000000,
   UtcLibc.format_tm <$> UtcLibc.broken_down 67768036191676799,
   UtcLibc.broken_down 67768036191676800,
   UtcLibc.broken_down (2 ^ 62)) =
  (Some "1970-01-01 00:00:00", Some "2023-11-14 22:13:20",
   Some "2147485547-12-31 23:59:59", None, None).
Proof. vm_compute. reflexivity. Qed.

Example format_FT_samples :
  (UtcLibc.format_FT 0, UtcLibc.format_FT 951782400, UtcLibc.format_FT 1700000000) =
  ("1970-01-01 00:00:00", "2000-02-29 00:00:00", "2023-11-14 22:13:20").
Proof. vm_compute. reflexivity. Qed.

Example Log_line_samples :
  Log_line "INFO  " EmptyString "2023-11-14 22:13:20" "upnp" "hello" =
    "INFO  [2023-11-14 22:13:20 | upnp] hello" +:+ nl /\
  Log_line "INFO  " EmptyString "2023-11-14 22:13:20" "upnp" ("hello" +:+ nl) =
    "INFO  [2023-11-14 22:13:20 | upnp] hello" +:+ nl /\
  Log_line kErrorHighlight kTermReset "2023-11-14 22:13:20" "upnp" EmptyString =
    String ESC "[1m" +:+ String ESC "[31mERROR [2023-11-14 22:13:20 | upnp]" +:+
    String ESC "[0m " +:+ nl.
Proof. repeat split. Qed.

Example Log_init_samples :
  descriptors Sample.all_files = (3, 4, 5) /\
  descriptors Sample.log_only = (3, -1, -1) /\
  descriptors Sample.terminal_log = (3, -1, -1) /\
  fd_data STDERR_FILENO Sample.terminal_log =
    Some ("Cannot open last played file: Permission denied" +:+ nl).
Proof. vm_compute. repeat split. Qed.

(** ** The operating system *)

Lemma fd_node_negative (w : World) (fd : Z) : fd < 0 -> fd_node w fd = None.
Proof.
  intros Hfd. unfold fd_node, fd_path.
  destruct (Z.ltb_spec fd 0); [reflexivity | lia].
Qed.

Lemma set_os_same (s : State) : set_os (os s) s = s.
Proof. now destruct s. Qed.

Lemma sys_write_same_clock (fd : Z) (buf : string) (w : World) :
  w_fds (snd (sys_write fd buf w)) = w_fds w /\ w_now (snd (sys_write fd buf w)) = w_now w.
Proof.
  unfold sys_write. destruct (fd_node w fd) as [[p [d|d|e]]|]; simpl; auto.
Qed.



Lemma fd_node_insert_same (w : World) (fd : Z) (p : string) (n n' : node) :
  fd_node w fd = Some (p, n) ->
  fd_node (mkWorld (<[p := n']> (w_fs w)) (w_fds w) (w_now w) (w_signal w)) fd = Some (p, n').
Proof.
  unfold fd_node, fd_path. simpl. intros Hn.
  destruct (fd <? 0); [discriminate|].
  destruct (mjoin (w_fds w !! Z.to_nat fd)) as [q|]; [|discriminate].
  destruct (w_fs w !! q) as [m|] eqn:Hq; [|discriminate].
  injection Hn as -> ->. now rewrite lookup_insert_eq.
Qed.


(** With [O_APPEND] the written bytes follow what the file already held. *)
Lemma call_write_appends (fd : Z) (buf d : string) (s : State) :
  fd_data fd s = Some d -> fd_data fd (call_write fd buf s) = Some (d +:+ buf).
Proof.
  unfold fd_data, call_write, syscall, sys_write.
  destruct (fd_node (os s) fd) as [[p [d'|d'|e]]|] eqn:Hn; intros Hd;
    try discriminate; injection Hd as ->; simpl;
    now rewrite (fd_node_insert_same _ _ _ _ _ Hn).
Qed.

(** Truncating a regular file leaves it empty. *)
Lemma call_ftruncate_empties (fd : Z) (p d : string) (s : State) :
  fd_node (os s) fd = Some (p, Regular d) ->
  fd_node (os (call_ftruncate fd s)) fd = Some (p, Regular EmptyString).
Proof.
  intros Hn. unfold call_ftruncate, syscall, sys_ftruncate0. rewrite Hn. simpl.
  now apply (fd_node_insert_same _ _ _ _ _ Hn).
Qed.


Lemma alloc_fd_spec (fds : list (option string)) (p : string) (i : nat)
    (fds' : list (option string)) :
  alloc_fd fds p = (i, fds') ->
  mjoin (fds' !! i) = Some p /\ mjoin (fds !! i) = None /\
  forall j, j <> i -> fds' !! j = fds !! j.
Proof.
  revert i fds'. induction fds as [|[q|] r IH]; intros i fds' Ha; simpl in Ha.
  - injection Ha as <- <-. repeat split; try reflexivity.
    intros [|j] Hj; [congruence | reflexivity].
  - destruct (alloc_fd r p) as [k r'] eqn:Hr. injection Ha as <- <-.
    destruct (IH _ _ eq_refl) as (H1 & H2 & H3). repeat split; try assumption.
    intros [|j] Hj; [reflexivity|]. simpl. apply H3. congruence.
  - injection Ha as <- <-. repeat split; try reflexivity.
    intros [|j] Hj; [congruence | reflexivity].
Qed.

(** [open] fails exactly on the empty path and on a path that is refused. *)
Lemma open_fails_alt (q : string) (w : World) :
  open_fails q w =
  String.eqb q EmptyString ||
  match w_fs w !! q with Some (Denied _) => true | _ => false end.
Proof.
  unfold open_fails, sys_open. destruct (String.eqb q EmptyString); [reflexivity|].
  destruct (w_fs w !! q) as [[d|d|e]|]; simpl; try reflexivity;
    now destruct (alloc_fd (w_fds w) q).
Qed.

Lemma sys_open_err (p : string) (w w' : World) (e : Z) :
  sys_open p w = (Err e, w') -> w' = w /\ open_fails p w = true.
Proof.
  unfold open_fails. intros Ho. rewrite Ho. split; [|reflexivity].
  unfold sys_open in Ho. destruct (String.eqb p EmptyString); [congruence|].
  destruct (w_fs w !! p) as [[d|d|e']|]; try congruence;
    destruct (alloc_fd (w_fds w) p); discriminate.
Qed.

(** A successful [open] returns a descriptor that was free, makes it refer
    to the path, and leaves every other descriptor and the clock alone. *)
Lemma sys_open_ok (p : string) (w w' : World) (v : Z) :
  sys_open p w = (Ok v, w') ->
  0 <= v /\ open_fails p w = false /\
  fd_path w' v = Some p /\ fd_path w v = None /\
  (forall fd, fd <> v -> fd_path w' fd = fd_path w fd) /\
  w_now w' = w_now w /\
  (forall q, open_fails q w' = open_fails q w).
Proof.
  intros Ho.
  assert (Hf : open_fails p w = false) by (unfold open_fails; now rewrite Ho).
  pose proof Hf as Hf'.
  unfold sys_open in Ho. rewrite open_fails_alt in Hf'.
  destruct (String.eqb_spec p EmptyString) as [|Hne]; [discriminate|].
  destruct (alloc_fd (w_fds w) p) as [i fds] eqn:Ha.
  destruct (alloc_fd_spec _ _ _ _ Ha) as (H1 & H2 & H3).
  assert (Hw : v = Z.of_nat i /\ w_fds w' = fds /\ w_now w' = w_now w /\
               forall q, open_fails q w' = open_fails q w).
  { destruct (w_fs w !! p) as [[d|d|e]|] eqn:Hp; try discriminate;
      injection Ho as <- <-; simpl; repeat split; try reflexivity;
      intros q; rewrite !open_fails_alt; simpl; try reflexivity.
    destruct (decide (p = q)) as [<-|Hpq].
    - now rewrite lookup_insert_eq, Hp.
    - now rewrite lookup_insert_ne. }
  destruct Hw as (-> & Hfds & Hnow & Hstable).
  unfold fd_path. rewrite Hfds.
  repeat split; try assumption; try lia.
  - destruct (Z.ltb_spec (Z.of_nat i) 0); [lia|]. now rewrite Nat2Z.id.
  - destruct (Z.ltb_spec (Z.of_nat i) 0); [lia|]. now rewrite Nat2Z.id.
  - intros fd Hfd. destruct (Z.ltb_spec fd 0); [reflexivity|].
    rewrite H3; [reflexivity|]. intros Heq. apply Hfd. lia.
Qed.

Lemma keeps_open (p : string) (w w' : World) (v : Z) :
  sys_open p w = (Ok v, w') -> keeps w w'.
Proof.
  intros Ho fd q Hq. destruct (sys_open_ok _ _ _ _ Ho) as (_ & _ & _ & Hfree & Hother & _).
  rewrite Hother; [exact Hq|]. intros ->. congruence.
Qed.

Lemma keeps_write (fd : Z) (buf : string) (w : World) : keeps w (snd (sys_write fd buf w)).
Proof.
  intros fd' q. unfold fd_path.
  now rewrite (proj1 (sys_write_same_clock fd buf w)).
Qed.

Lemma opened_keeps (name : option string) (fd : Z) (s s' : State) :
  keeps (os s) (os s') -> opened name fd s -> opened name fd s'.
Proof.
  intros Hk. destruct name as [p|]; simpl; [|auto].
  intros [Hfd Hp]. split; [exact Hfd | now apply Hk].
Qed.

Section LoggingFacts.

Context {libc : Libc}.

Lemma call_write_os (fd : Z) (buf : string) (s : State) :
  call_write fd buf s = set_os (snd (sys_write fd buf (os s))) s.
Proof. unfold call_write, syscall. now destruct (sys_write fd buf (os s)). Qed.

Lemma call_ftruncate_os (fd : Z) (s : State) :
  call_ftruncate fd s = set_os (snd (sys_ftruncate0 fd (os s))) s.
Proof. unfold call_ftruncate, syscall. now destruct (sys_ftruncate0 fd (os s)). Qed.

Lemma perror_os (msg : string) (e : Z) (s : State) :
  perror msg e s =
  set_os (snd (sys_write STDERR_FILENO (msg +:+ ": " +:+ strerror e +:+ nl) (os s))) s.
Proof. apply call_write_os. Qed.

(** One [open] block of [Log_init]: it returns exactly when the path was
    given and refused, and otherwise stores the new descriptor. *)
Lemma open_or_return_spec (name : option string) (store : Z -> State -> State)
    (msg : string) (s : State) :
  match open_or_return name store msg s with
  | Next s' =>
      attempt_fails name (os s) = false /\
      ((name = None /\ s' = s) \/
       (exists p v w', name = Some p /\ sys_open p (os s) = (Ok v, w') /\
                       s' = store v (set_os w' s)))
  | Return s' =>
      attempt_fails name (os s) = true /\ exists e, s' = perror msg e (store (-1) s)
  end.
Proof.
  destruct name as [p|]; simpl; [|auto].
  unfold syscall. destruct (sys_open p (os s)) as [[v|e] w'] eqn:Ho; simpl.
  - destruct (sys_open_ok _ _ _ _ Ho) as (Hv & Hf & _).
    destruct (Z.ltb_spec v 0); [lia|]. split; [exact Hf|].
    right. now exists p, v, w'.
  - destruct (sys_open_err _ _ _ _ Ho) as [-> Hf]. split; [exact Hf|].
    exists e. now rewrite set_os_same.
Qed.


Lemma isatty_cases (fd : Z) (w : World) : isatty fd w = 0 \/ isatty fd w = 1.
Proof. unfold isatty. destruct (fd_node w fd) as [[p [d|d|e]]|]; auto. Qed.

Lemma attempt_fails_stable (name : option string) (w w' : World) :
  (forall q, open_fails q w' = open_fails q w) ->
  attempt_fails name w' = attempt_fails name w.
Proof. intros Hst. destruct name; simpl; auto. Qed.

Lemma Log_init_spec (filename last_played_file playback_time_file : option string)
    (level : Z) (w : World) :
  let s := Log_init filename last_played_file playback_time_file (initial level w) in
  debug_level s = level /\
  ((attempt_fails filename w = true /\
    descriptors s = (-1, -1, -1) /\ markup s = plain) \/
   (attempt_fails filename w = false /\ attempt_fails last_played_file w = true /\
    opened filename (log_fd s) s /\
    last_played_fd s = -1 /\ playback_fd s = -1 /\ markup s = plain) \/
   (attempt_fails filename w = false /\ attempt_fails last_played_file w = false /\
    attempt_fails playback_time_file w = true /\
    opened filename (log_fd s) s /\ opened last_played_file (last_played_fd s) s /\
    playback_fd s = -1 /\ markup s = plain) \/
   (attempt_fails filename w = false /\ attempt_fails last_played_file w = false /\
    attempt_fails playback_time_file w = false /\
    opened filename (log_fd s) s /\ opened last_played_file (last_played_fd s) s /\
    opened playback_time_file (playback_fd s) s /\
    ((isatty (log_fd s) (os s) = 1 /\ markup s = highlighted) \/
     (isatty (log_fd s) (os s) = 0 /\ markup s = plain)))).
Proof.
  intros s. subst s. unfold Log_init.
  pose proof (open_or_return_spec filename set_log_fd "Cannot open logfile" (initial level w)) as H1.
  destruct (open_or_return filename set_log_fd "Cannot open logfile" (initial level w)) as [s1|s1].
  2:{ destruct H1 as [Hf [e ->]]. simpl. rewrite perror_os. simpl. split; [reflexivity|].
      left. auto. }
  destruct H1 as [Hf1 H1]. simpl in Hf1.
  assert (K1 : debug_level s1 = level /\ opened filename (log_fd s1) s1 /\
               last_played_fd s1 = -1 /\ playback_fd s1 = -1 /\ markup s1 = plain /\
               forall q, open_fails q (os s1) = open_fails q w).
  { destruct H1 as [[-> ->]|(p & v & w' & -> & Ho & ->)]; simpl; [auto 10|].
    destruct (sys_open_ok _ _ _ _ Ho) as (Hv & _ & Hp & _ & _ & _ & Hst).
    auto 10. }
  clear H1. destruct K1 as (Kd & Kl & Kp & Kb & Km & Kst).
  cbn [flow_bind].
  pose proof (open_or_return_spec last_played_file set_last_played_fd
                "Cannot open last played file" s1) as H2.
  destruct (open_or_return last_played_file set_last_played_fd
              "Cannot open last played file" s1) as [s2|s2].
  2:{ destruct H2 as [Hf [e ->]]. cbn [flow_bind flow_end]. rewrite perror_os.
      rewrite (attempt_fails_stable _ _ _ Kst) in Hf.
      split; [exact Kd|]. right; left. repeat split; try assumption.
      eapply opened_keeps; [|exact Kl]. simpl. apply keeps_write. }
  destruct H2 as [Hf2 H2]. rewrite (attempt_fails_stable _ _ _ Kst) in Hf2.
  assert (K2 : debug_level s2 = level /\ opened filename (log_fd s2) s2 /\
               opened last_played_file (last_played_fd s2) s2 /\
               playback_fd s2 = -1 /\ markup s2 = plain /\
               forall q, open_fails q (os s2) = open_fails q w).
  { destruct H2 as [[-> ->]|(p & v & w' & -> & Ho & ->)]; simpl; [auto 10|].
    destruct (sys_open_ok _ _ _ _ Ho) as (Hv & _ & Hp & _ & _ & _ & Hst).
    repeat split; try assumption.
    - eapply opened_keeps; [|exact Kl]. simpl. eapply keeps_open, Ho.
    - intros q. now rewrite Hst. }
  clear H2. destruct K2 as (Ld & Ll & Lp & Lb & Lm & Lst).
  cbn [flow_bind].
  pose proof (open_or_return_spec playback_time_file set_playback_fd
                "Cannot open playback time file" s2) as H3.
  destruct (open_or_return playback_time_file set_playback_fd
              "Cannot open playback time file" s2) as [s3|s3].
  2:{ destruct H3 as [Hf [e ->]]. cbn [flow_bind flow_end]. rewrite perror_os.
      rewrite (attempt_fails_stable _ _ _ Lst) in Hf.
      split; [exact Ld|]. right; right; left. repeat split; try assumption.
      - eapply opened_keeps; [|exact Ll]. simpl. apply keeps_write.
      - eapply opened_keeps; [|exact Lp]. simpl. apply keeps_write. }
  destruct H3 as [Hf3 H3]. rewrite (attempt_fails_stable _ _ _ Lst) in Hf3.
  assert (K3 : debug_level s3 = level /\ opened filename (log_fd s3) s3 /\
               opened last_played_file (last_played_fd s3) s3 /\
               opened playback_time_file (playback_fd s3) s3 /\ markup s3 = plain).
  { destruct H3 as [[-> ->]|(p & v & w' & -> & Ho & ->)]; simpl; [auto 10|].
    destruct (sys_open_ok _ _ _ _ Ho) as (Hv & _ & Hp & _ & _ & _ & Hst).
    repeat split; try assumption.
    - eapply opened_keeps; [|exact Ll]. simpl. eapply keeps_open, Ho.
    - eapply opened_keeps; [|exact Lp]. simpl. eapply keeps_open, Ho. }
  clear H3. destruct K3 as (Md & Ml & Mp & Mb & Mm).
  cbn [flow_bind]. cbn [enable_color set_enable_color].
  injection Mm as Mc Mi Me Mr.
  destruct (isatty_cases (log_fd s3) (os s3)) as [Ht|Ht]; rewrite Ht;
    cbn [Z.eqb flow_end Pos.eqb]; (split; [exact Md|]); right; right; right;
    (repeat split; try assumption).
  - right. split; [exact Ht|]. unfold markup, plain. simpl. congruence.
  - left. split; [exact Ht|]. reflexivity.
Qed.

(** ** Log lines *)

Lemma Log_line_eq (markup_start markup_end fmt_buf category message : string) :
  Log_line markup_start markup_end fmt_buf category message =
  Log_prefix markup_start markup_end fmt_buf category +:+ message +:+
  (if already_newline message then EmptyString else nl).
Proof.
  unfold Log_line, Log_parts. destruct (already_newline message).
  - now rewrite string_app_empty_r.
  - reflexivity.
Qed.

Lemma Log_prefix_space (markup_start markup_end fmt_buf category : string) :
  Log_prefix markup_start markup_end fmt_buf category =
  (markup_start +:+ "[" +:+ fmt_buf +:+ " | " +:+ category +:+ "]" +:+ markup_end) +:+ " ".
Proof. unfold Log_prefix. now rewrite !string_app_assoc. Qed.

(** The line ends with as many newlines as the message, and with one when
    the message has none. *)
Lemma Log_line_newlines (markup_start markup_end fmt_buf category message : string) :
  trailing_newlines (Log_line markup_start markup_end fmt_buf category message) =
  Nat.max 1 (trailing_newlines message).
Proof.
  rewrite Log_line_eq, Log_prefix_space.
  destruct (already_newline message) eqn:Hn.
  - rewrite string_app_empty_r, trailing_newlines_after by discriminate.
    apply already_newline_true in Hn. lia.
  - rewrite <- string_app_assoc, trailing_newlines_snoc_nl.
    rewrite trailing_newlines_after by discriminate.
    now rewrite (already_newline_false _ Hn).
Qed.

Lemma Log_internal_writes (fd : Z) (markup_start category message : string) (s : State) :
  Log_internal fd markup_start category message s =
  call_write fd
    (Log_line markup_start (markup_end_ s) (strftime_localtime (gettimeofday (os s)))
       category message) s.
Proof. reflexivity. Qed.


Lemma already_newline_iff (message : string) :
  already_newline message = true <-> last_byte message = Some newline.
Proof.
  unfold already_newline. destruct message as [|c m].
  - split; [intros [=] | discriminate].
  - change (0 <? String.length (String c m))%nat with true.
    rewrite andb_true_l. apply bool_decide_eq_true.
Qed.

Lemma sys_ftruncate0_same_clock (fd : Z) (w : World) :
  w_fds (snd (sys_ftruncate0 fd w)) = w_fds w /\
  w_now (snd (sys_ftruncate0 fd w)) = w_now w.
Proof.
  unfold sys_ftruncate0. destruct (fd_node w fd) as [[p [d|d|e]]|]; simpl; auto.
Qed.

(** The operations after [Log_init] change nothing but the operating
    system: no static variable is assigned. *)
Lemma perform_only_os (c : call) (s : State) :
  exists w, perform c s = set_os w s /\ w_now w = w_now (os s).
Proof.
  unfold perform. destruct (terminated (os s)).
  { exists (os s). now rewrite set_os_same. }
  assert (Hint : forall fd m c' msg t,
             exists w, Log_internal fd m c' msg t = set_os w t /\ w_now w = w_now (os t)).
  { intros. rewrite Log_internal_writes, call_write_os. eexists; split; [reflexivity|].
    apply sys_write_same_clock. }
  assert (Hprint : forall level c' msg t,
             exists w, print_log level c' msg t = set_os w t /\ w_now w = w_now (os t)).
  { intros. unfold print_log. destruct (debug_level t <? level); [|apply Hint].
    exists (os t). now rewrite set_os_same. }
  destruct c as [c' msg|c' msg|level c' msg|t|t0 t1]; simpl.
  - unfold Log_info. destruct (log_fd s <? 0); [|apply Hint].
    exists (os s). now rewrite set_os_same.
  - apply Hint.
  - apply Hprint.
  - unfold log_last_playback. destruct (gmtime t) as [timeinfo|].
    + rewrite call_write_os, call_ftruncate_os. simpl.
      eexists; split; [reflexivity|].
      rewrite (proj2 (sys_write_same_clock _ _ _)). apply sys_ftruncate0_same_clock.
    + eexists; split; reflexivity.
  - unfold log_playback_duration.
    match goal with |- context [print_log 0 ?c ?m ?t] =>
      destruct (Hprint 0 c m t) as (w & -> & Hw); revert Hw end.
    rewrite call_write_os, call_ftruncate_os. simpl. intros Hw.
    eexists; split; [reflexivity|]. rewrite Hw.
    rewrite (proj2 (sys_write_same_clock _ _ _)). apply sys_ftruncate0_same_clock.
Qed.

Lemma perform_all_only_os (cs : list call) (s : State) :
  exists w, perform_all cs s = set_os w s /\ w_now w = w_now (os s).
Proof.
  revert s. induction cs as [|c cs IH]; intros s; simpl.
  - exists (os s). now rewrite set_os_same.
  - destruct (perform_only_os c s) as (w1 & -> & H1).
    destruct (IH (set_os w1 s)) as (w2 & -> & H2).
    exists w2. split; [reflexivity|]. simpl in H2. congruence.
Qed.

Lemma perform_all_statics (cs : list call) (s : State) :
  descriptors (perform_all cs s) = descriptors s /\
  markup (perform_all cs s) = markup s /\
  debug_level (perform_all cs s) = debug_level s.
Proof. destruct (perform_all_only_os cs s) as (w & -> & _). auto. Qed.

Lemma Log_init_log_fd (filename last_played_file playback_time_file : option string)
    (level : Z) (w : World) :
  let s := Log_init filename last_played_file playback_time_file (initial level w) in
  (attempt_succeeds filename w = true /\ 0 <= log_fd s) \/
  (attempt_succeeds filename w = false /\ log_fd s = -1).
Proof.
  intros s. subst s.
  assert (Hopen : forall fd st, attempt_fails filename w = false -> opened filename fd st ->
            (attempt_succeeds filename w = true /\ 0 <= fd) \/
            (attempt_succeeds filename w = false /\ fd = -1)).
  { intros fd st. destruct filename as [p|]; simpl; [intros -> [Hfd _]; auto | auto]. }
  destruct (Log_init_spec filename last_played_file playback_time_file level w)
    as (_ & [(Hf & Hd & _)|[(Hf & _ & Ho & _)|[(Hf & _ & _ & Ho & _)|(Hf & _ & _ & Ho & _)]]]);
    eauto.
  right. injection Hd as -> _ _. split; [|reflexivity].
  destruct filename as [p|]; simpl in *; [now rewrite Hf | reflexivity].
Qed.


(** ** Leveled logging and the playback records *)

Lemma print_log_off (level : Z) (category message : string) (s : State) :
  debug_level s < level -> print_log level category message s = s.
Proof.
  intros Hl. unfold print_log.
  destruct (Z.ltb_spec (debug_level s) level); [reflexivity | lia].
Qed.

Lemma print_log_on (level : Z) (category message : string) (s : State) :
  level <= debug_level s ->
  print_log level category message s =
  call_write (if log_fd s <? 0 then STDERR_FILENO else log_fd s)
    (Log_line (info_markup_start_ s) (markup_end_ s)
       (strftime_localtime (gettimeofday (os s))) category message) s.
Proof.
  intros Hl. unfold print_log.
  destruct (Z.ltb_spec (debug_level s) level); [lia | reflexivity].
Qed.

(** Truncating and writing a state file touches no variable that
    [print_log] reads, and not the clock. *)
Lemma record_keeps_statics (fd : Z) (buf : string) (s : State) :
  let s2 := call_write fd buf (call_ftruncate fd s) in
  debug_level s2 = debug_level s /\ log_fd s2 = log_fd s /\
  info_markup_start_ s2 = info_markup_start_ s /\ markup_end_ s2 = markup_end_ s /\
  gettimeofday (os s2) = gettimeofday (os s).
Proof.
  cbv zeta. rewrite call_write_os, call_ftruncate_os. simpl. repeat split.
  unfold gettimeofday. rewrite (proj2 (sys_write_same_clock _ _ _)).
  apply sys_ftruncate0_same_clock.
Qed.

(** [log_playback_duration] is the write of the record followed by
    [print_log] at level 0. *)
Lemma log_playback_duration_steps (playstart playend : Z) (s : State) :
  let rawSeconds := int_of_double (difftime playend playstart) in
  log_playback_duration playstart playend s =
  print_log 0 "transport"
    ("Total playing time " +:+ fmt_02d (Z.quot rawSeconds 3600) +:+ ":" +:+
     fmt_02d (Z.rem (Z.quot rawSeconds 60) 60) +:+ ":" +:+
     fmt_02d (Z.rem rawSeconds 60) +:+ nl)
    (call_write (playback_fd s) ("UPNP_TOTAL=" +:+ fmt_d rawSeconds +:+ nl)
       (call_ftruncate (playback_fd s) s)).
Proof.
  cbv zeta. unfold log_playback_duration. now rewrite !call_ftruncate_os.
Qed.

(** ** The logging facility against its specification *)

(** C3. For every category and every rendered message that ends with at
    most one newline, the line that [Log_info], [Log_error] and
    [print_log] emit ends with exactly one newline: the third part
    (the newline) is written when the message does not end with one and is
    left out when it does. *)
Theorem emitted_line_one_newline (level : Z) (category message : string) (s : State) :
  (trailing_newlines message <= 1)%nat ->
  let fmt_buf := strftime_localtime (gettimeofday (os s)) in
  let info_prefix := Log_prefix (info_markup_start_ s) (markup_end_ s) fmt_buf category in
  let error_prefix := Log_prefix (error_markup_start_ s) (markup_end_ s) fmt_buf category in
  let info_line := Log_line (info_markup_start_ s) (markup_end_ s) fmt_buf category message in
  let error_line := Log_line (error_markup_start_ s) (markup_end_ s) fmt_buf category message in
  let fd := if log_fd s <? 0 then STDERR_FILENO else log_fd s in
  (Log_info category message s = s \/
   Log_info category message s = call_write (log_fd s) info_line s) /\
  Log_error category message s = call_write fd error_line s /\
  (print_log level category message s = s \/
   print_log level category message s = call_write fd info_line s) /\
  trailing_newlines info_line = 1%nat /\
  trailing_newlines error_line = 1%nat /\
  (last_byte message = Some newline ->
   info_line = info_prefix +:+ message /\ error_line = error_prefix +:+ message) /\
  (last_byte message <> Some newline ->
   info_line = info_prefix +:+ message +:+ nl /\
   error_line = error_prefix +:+ message +:+ nl).
Proof.
  intros Hm. cbv zeta.
  assert (Hone : forall m e t,
             trailing_newlines (Log_line m e t category message) = 1%nat)
    by (intros; rewrite Log_line_newlines; lia).
  assert (Hends : last_byte message = Some newline ->
                  forall m e t, Log_line m e t category message =
                                Log_prefix m e t category +:+ message).
  { intros Hl%already_newline_iff m e t.
    now rewrite Log_line_eq, Hl, string_app_empty_r. }
  assert (Hlacks : last_byte message <> Some newline ->
                   forall m e t, Log_line m e t category message =
                                 Log_prefix m e t category +:+ message +:+ nl).
  { intros Hl m e t. rewrite Log_line_eq.
    destruct (already_newline message) eqn:Hn; [|reflexivity].
    now apply already_newline_iff in Hn. }
  split; [|split; [|split; [|split; [|split; [|split]]]]].
  - unfold Log_info. destruct (log_fd s <? 0); [now left | now right].
  - reflexivity.
  - unfold print_log. destruct (debug_level s <? level); [now left | now right].
  - apply Hone.
  - apply Hone.
  - intros Hl. split; now apply Hends.
  - intros Hl. split; now apply Hlacks.
Qed.

(** C7. [print_log] emits nothing when the level is above [debug_level];
    otherwise it writes one line with the informational prefix to the
    general log when that is configured and to the standard error stream
    when it is not, where [Log_info] writes nothing. A written line is
    appended to what the destination holds. *)
Theorem print_log_threshold (level : Z) (category message : string) (s : State) :
  let line := Log_line (info_markup_start_ s) (markup_end_ s)
                (strftime_localtime (gettimeofday (os s))) category message in
  (debug_level s < level -> print_log level category message s = s) /\
  (level <= debug_level s -> 0 <= log_fd s ->
   print_log level category message s = call_write (log_fd s) line s) /\
  (level <= debug_level s -> log_fd s < 0 ->
   print_log level category message s = call_write STDERR_FILENO line s /\
   Log_info category message s = s) /\
  (forall fd d, fd_data fd s = Some d ->
                fd_data fd (call_write fd line s) = Some (d +:+ line)).
Proof.
  cbv zeta. split; [|split; [|split]].
  - apply print_log_off.
  - intros Hl Hfd. rewrite print_log_on by exact Hl.
    destruct (Z.ltb_spec (log_fd s) 0); [lia | reflexivity].
  - intros Hl Hfd. rewrite print_log_on by exact Hl. unfold Log_info.
    destruct (Z.ltb_spec (log_fd s) 0); [split; reflexivity | lia].
  - intros fd d. apply call_write_appends.
Qed.


(** C6. Before [Log_init] has run [Log_info_enabled] is false. After
    [Log_init], and after any further operations, it is false exactly when
    the general log was not opened (no path was given, or [open] refused
    it). In that state
    [Log_info] leaves every file as it is, and [Log_error] writes its line
    to the standard error stream, after what that stream holds. *)
Theorem info_disabled_iff_log_not_opened
    (filename last_played_file playback_time_file : option string)
    (level : Z) (w : World) (calls : list call) (category message : string) :
  let s := perform_all calls
             (Log_init filename last_played_file playback_time_file (initial level w)) in
  let line := Log_line (error_markup_start_ s) (markup_end_ s)
                (strftime_localtime (gettimeofday (os s))) category message in
  Log_info_enabled (perform_all calls (initial level w)) = 0 /\
  (Log_info_enabled s = 0 <-> attempt_succeeds filename w = false) /\
  (Log_info_enabled s = 0 ->
   Log_info category message s = s /\
   Log_error category message s = call_write STDERR_FILENO line s /\
   forall d, fd_data STDERR_FILENO s = Some d ->
             fd_data STDERR_FILENO (Log_error category message s) = Some (d +:+ line)).
Proof.
  cbv zeta.
  set (s0 := Log_init filename last_played_file playback_time_file (initial level w)).
  set (s := perform_all calls s0).
  assert (Hfd : log_fd s = log_fd s0).
  { destruct (perform_all_statics calls s0) as (Hd & _). now injection Hd. }
  assert (Hen : Log_info_enabled s = 0 <-> log_fd s < 0).
  { unfold Log_info_enabled. destruct (Z.leb_spec 0 (log_fd s)); split; intros; lia. }
  split.
  { destruct (perform_all_statics calls (initial level w)) as (Hd & _).
    unfold Log_info_enabled. injection Hd as -> _ _. reflexivity. }
  split.
  - rewrite Hen, Hfd.
    destruct (Log_init_log_fd filename last_played_file playback_time_file level w)
      as [[Hs Hv]|[Hs Hv]]; fold s0 in Hv; rewrite Hs; split; intros;
      first [lia | reflexivity | discriminate].
  - intros Hoff%Hen.
    assert (Hlt : (log_fd s <? 0) = true) by (apply Z.ltb_lt; exact Hoff).
    assert (Herr : Log_error category message s =
                   call_write STDERR_FILENO
                     (Log_line (error_markup_start_ s) (markup_end_ s)
                        (strftime_localtime (gettimeofday (os s))) category message) s).
    { unfold Log_error. now rewrite Hlt. }
    repeat split.
    + unfold Log_info. now rewrite Hlt.
    + exact Herr.
    + intros d Hd. rewrite Herr. now apply call_write_appends.
Qed.

(** C10. The line "Total playing time" of [log_playback_duration] is
    emitted by [print_log] at level 0 after the playback-duration file was
    written: with a negative [debug_level] no line is written, and with a
    general log that is not configured the line goes to the standard error
    stream. *)
Theorem playing_time_line_at_level_zero (playstart playend : Z) (s : State) :
  let rawSeconds := int_of_double (difftime playend playstart) in
  let message :=
    "Total playing time " +:+ fmt_02d (Z.quot rawSeconds 3600) +:+ ":" +:+
    fmt_02d (Z.rem (Z.quot rawSeconds 60) 60) +:+ ":" +:+
    fmt_02d (Z.rem rawSeconds 60) +:+ nl in
  let line := Log_line (info_markup_start_ s) (markup_end_ s)
                (strftime_localtime (gettimeofday (os s))) "transport" message in
  let s2 := call_write (playback_fd s) ("UPNP_TOTAL=" +:+ fmt_d rawSeconds +:+ nl)
              (call_ftruncate (playback_fd s) s) in
  log_playback_duration playstart playend s = print_log 0 "transport" message s2 /\
  (debug_level s < 0 -> log_playback_duration playstart playend s = s2) /\
  (0 <= debug_level s -> log_fd s < 0 ->
   log_playback_duration playstart playend s = call_write STDERR_FILENO line s2 /\
   forall d, fd_data STDERR_FILENO s2 = Some d ->
             fd_data STDERR_FILENO (log_playback_duration playstart playend s) =
             Some (d +:+ line)).
Proof.
  cbv zeta. rewrite log_playback_duration_steps.
  set (raw := int_of_double (difftime playend playstart)).
  set (message := "Total playing time " +:+ _).
  set (s2 := call_write _ _ _).
  destruct (record_keeps_statics (playback_fd s)
              ("UPNP_TOTAL=" +:+ fmt_d raw +:+ nl) s) as (Hd & Hl & Hi & He & Ht).
  fold s2 in Hd, Hl, Hi, He, Ht.
  split; [reflexivity|]. split.
  - intros Hlevel. apply print_log_off. lia.
  - intros Hlevel Hfd. rewrite print_log_on by lia.
    rewrite Hl, Hi, He, Ht. destruct (Z.ltb_spec (log_fd s) 0); [|lia].
    split; [reflexivity|]. intros d. apply call_write_appends.
Qed.


(** Truncating a regular file and writing to it leaves exactly the written
    bytes in the file. *)
Lemma truncate_write_regular (fd : Z) (buf p old : string) (s : State) :
  fd_node (os s) fd = Some (p, Regular old) ->
  call_write fd buf (call_ftruncate fd s) =
  set_os (mkWorld (<[p := Regular buf]> (w_fs (os s))) (w_fds (os s)) (w_now (os s))
            (w_signal (os s))) s.
Proof.
  intros Hn. pose proof (call_ftruncate_empties _ _ _ _ Hn) as He.
  rewrite call_write_os. unfold sys_write. rewrite He.
  rewrite call_ftruncate_os. unfold sys_ftruncate0. rewrite Hn. simpl.
  now rewrite insert_insert_eq.
Qed.


(** With a time that [gmtime] converts, [log_last_playback] truncates and
    writes; with one that it does not convert, the process ends there. *)
Lemma log_last_playback_converted (playstart : Z) (timeinfo : tm) (s : State) :
  gmtime playstart = Some timeinfo ->
  log_last_playback playstart s =
  call_write (last_played_fd s) (last_played_record timeinfo)
    (call_ftruncate (last_played_fd s) s).
Proof.
  intros Hg. unfold log_last_playback. rewrite Hg. now rewrite call_ftruncate_os.
Qed.

Lemma log_last_playback_null (playstart : Z) (s : State) :
  gmtime playstart = None -> log_last_playback playstart s = segfault s.
Proof. intros Hg. unfold log_last_playback. now rewrite Hg. Qed.


Lemma perform_terminated (c : call) (s : State) :
  terminated (os s) = true -> perform c s = s.
Proof. intros Ha. unfold perform. now rewrite Ha. Qed.

Lemma perform_all_terminated (cs : list call) (s : State) :
  terminated (os s) = true -> perform_all cs s = s.
Proof.
  intros Ha. induction cs as [|c cs IH]; [reflexivity|].
  change (perform_all (c :: cs) s) with (perform_all cs (perform c s)).
  now rewrite perform_terminated.
Qed.



Lemma int_of_double_exact (d : Z) : INT_MIN <= d <= INT_MAX -> int_of_double d = d.
Proof.
  intros [Hlo Hhi]. unfold int_of_double.
  destruct (Z.leb_spec INT_MIN d); [|lia]. destruct (Z.leb_spec d INT_MAX); [reflexivity | lia].
Qed.



Lemma attempt_fails_succeeds (name : option string) (w : World) :
  attempt_fails name w = true -> attempt_succeeds name w = false.
Proof. destruct name as [p|]; simpl; [now intros -> | discriminate]. Qed.

Lemma opened_configured (name : option string) (fd : Z) (s : State) (w : World) :
  attempt_fails name w = false -> opened name fd s ->
  (0 <= fd <-> attempt_succeeds name w = true) /\
  (0 <= fd -> fd_path (os s) fd = name) /\ (fd < 0 -> fd = -1).
Proof.
  destruct name as [p|]; simpl.
  - intros -> [Hfd Hp]. repeat split; auto. lia.
  - intros _ ->. repeat split; try discriminate; lia.
Qed.

(** [Log_init] configures a destination exactly when its path was given,
    [open] accepts it, and no destination before it failed. What is
    configured refers to its path, and what is not holds -1. *)
Lemma Log_init_configured
    (filename last_played_file playback_time_file : option string) (level : Z) (w : World) :
  let s := Log_init filename last_played_file playback_time_file (initial level w) in
  (0 <= log_fd s <-> attempt_succeeds filename w = true) /\
  (0 <= last_played_fd s <->
   attempt_fails filename w = false /\ attempt_succeeds last_played_file w = true) /\
  (0 <= playback_fd s <->
   attempt_fails filename w = false /\ attempt_fails last_played_file w = false /\
   attempt_succeeds playback_time_file w = true) /\
  (0 <= log_fd s -> fd_path (os s) (log_fd s) = filename) /\
  (0 <= last_played_fd s -> fd_path (os s) (last_played_fd s) = last_played_file) /\
  (0 <= playback_fd s -> fd_path (os s) (playback_fd s) = playback_time_file) /\
  (log_fd s < 0 -> log_fd s = -1) /\
  (last_played_fd s < 0 -> last_played_fd s = -1) /\
  (playback_fd s < 0 -> playback_fd s = -1).
Proof.
  cbv zeta.
  destruct (Log_init_spec filename last_played_file playback_time_file level w)
    as (_ & [(F1 & Hd & _)|[(F1 & F2 & O1 & E2 & E3 & _)|[(F1 & F2 & F3 & O1 & O2 & E3 & _)|
              (F1 & F2 & F3 & O1 & O2 & O3 & _)]]]).
  - injection Hd as -> -> ->. pose proof (attempt_fails_succeeds _ _ F1) as S1.
    rewrite F1, S1. repeat split; intros; try lia; try discriminate; tauto.
  - destruct (opened_configured _ _ _ _ F1 O1) as (A1 & B1 & C1).
    pose proof (attempt_fails_succeeds _ _ F2) as S2.
    rewrite E2, E3, F1, F2, S2. repeat split; intros; try lia; try tauto; auto;
      try (destruct_and?; discriminate).
  - destruct (opened_configured _ _ _ _ F1 O1) as (A1 & B1 & C1).
    destruct (opened_configured _ _ _ _ F2 O2) as (A2 & B2 & C2).
    pose proof (attempt_fails_succeeds _ _ F3) as S3.
    rewrite E3, F1, F2, S3. repeat split; intros; try lia; try tauto; auto;
      try (destruct_and?; discriminate).
  - destruct (opened_configured _ _ _ _ F1 O1) as (A1 & B1 & C1).
    destruct (opened_configured _ _ _ _ F2 O2) as (A2 & B2 & C2).
    destruct (opened_configured _ _ _ _ F3 O3) as (A3 & B3 & C3).
    rewrite F1, F2. repeat split; intros; try lia; try tauto; auto.
Qed.



Lemma esc_free_Log_line_plain (markup_start fmt_buf category message : string) :
  esc_free markup_start = true -> esc_free fmt_buf = true ->
  esc_free category = true -> esc_free message = true ->
  esc_free (Log_line markup_start EmptyString fmt_buf category message) = true.
Proof.
  intros Hs Ht Hc Hm. rewrite Log_line_eq. unfold Log_prefix.
  rewrite !esc_free_app, Hs, Ht, Hc, Hm.
  now destruct (already_newline message).
Qed.

(** C8. The color flag and the three markup strings are assigned by
    [Log_init] only: after any sequence of later operations they are what
    [Log_init] left, which is the highlighted set only if [isatty] holds of
    the general log descriptor, and the plain set otherwise; when neither
    state file fails to open it is the highlighted set exactly if [isatty]
    holds. When the
    general log is not a terminal, [Log_color_allowed] is 0 and an emitted
    line is the plain prefix, the timestamp, the category and the message:
    it holds no escape byte unless the caller's text or the timestamp
    does. *)
Theorem markup_fixed_at_init
    (filename last_played_file playback_time_file : option string)
    (level : Z) (w : World) (calls : list call) (category message : string) :
  let s0 := Log_init filename last_played_file playback_time_file (initial level w) in
  let s := perform_all calls s0 in
  let fmt_buf := strftime_localtime (gettimeofday (os s)) in
  let info_line := Log_line (info_markup_start_ s) (markup_end_ s) fmt_buf category message in
  let error_line := Log_line (error_markup_start_ s) (markup_end_ s) fmt_buf category message in
  markup (initial level w) = plain /\
  markup s = markup s0 /\
  ((markup s0 = highlighted /\ isatty (log_fd s0) (os s0) = 1) \/ markup s0 = plain) /\
  (attempt_fails last_played_file w = false -> attempt_fails playback_time_file w = false ->
   (markup s0 = highlighted <-> isatty (log_fd s0) (os s0) = 1)) /\
  (isatty (log_fd s0) (os s0) = 0 ->
   Log_color_allowed s = 0 /\
   info_line = Log_line "INFO  " EmptyString fmt_buf category message /\
   error_line = Log_line "ERROR " EmptyString fmt_buf category message /\
   (esc_free fmt_buf = true -> esc_free category = true -> esc_free message = true ->
    esc_free info_line = true /\ esc_free error_line = true)).
Proof.
  cbv zeta.
  set (s0 := Log_init filename last_played_file playback_time_file (initial level w)).
  set (s := perform_all calls s0).
  destruct (perform_all_statics calls s0) as (_ & Hm & _). fold s in Hm.
  assert (Hinit : (markup s0 = highlighted /\ isatty (log_fd s0) (os s0) = 1) \/
                  markup s0 = plain).
  { destruct (Log_init_spec filename last_played_file playback_time_file level w)
      as (_ & [(_ & _ & Hp)|[(_ & _ & _ & _ & _ & Hp)|[(_ & _ & _ & _ & _ & _ & Hp)|
                (_ & _ & _ & _ & _ & _ & [[Ht Hp]|[Ht Hp]])]]]); auto. }
  split; [reflexivity|]. split; [exact Hm|]. split; [exact Hinit|].
  split.
  { intros F2 F3.
    destruct (Log_init_spec filename last_played_file playback_time_file level w)
      as (_ & [(_ & Hd & Hp)|[(_ & F2' & _)|[(_ & _ & F3' & _)|
                (_ & _ & _ & _ & _ & _ & [[Ht Hp]|[Ht Hp]])]]]); try congruence;
      fold s0 in Hp; rewrite Hp.
    - fold s0 in Hd. injection Hd as -> _ _.
      unfold isatty. rewrite fd_node_negative by lia. split; discriminate.
    - fold s0 in Ht. rewrite Ht. split; reflexivity.
    - fold s0 in Ht. rewrite Ht. split; discriminate. }
  intros Hnotty.
  assert (Hplain : markup s = plain).
  { rewrite Hm. destruct Hinit as [[_ Ht]|Hp]; [lia | exact Hp]. }
  injection Hplain as Hc Hi He Hr. unfold Log_color_allowed.
  rewrite Hc, Hi, He, Hr. repeat split.
  - now apply esc_free_Log_line_plain.
  - now apply esc_free_Log_line_plain.
Qed.

(** C9. If [Log_init] fails to open the last-played file or the
    playback-duration file it returns before [isatty] is asked, so the
    color flag stays 0 and the plain prefixes stay in use for every later
    log line, whatever the general log descriptor refers to. *)
Theorem failed_state_file_keeps_plain_markup
    (filename last_played_file playback_time_file : option string)
    (level : Z) (w : World) (calls : list call) (category message : string) :
  attempt_fails last_played_file w = true \/ attempt_fails playback_time_file w = true ->
  let s0 := Log_init filename last_played_file playback_time_file (initial level w) in
  let s := perform_all calls s0 in
  let fmt_buf := strftime_localtime (gettimeofday (os s)) in
  Log_color_allowed s0 = 0 /\ Log_color_allowed s = 0 /\
  markup s0 = plain /\ markup s = plain /\
  Log_line (info_markup_start_ s) (markup_end_ s) fmt_buf category message =
    Log_line "INFO  " EmptyString fmt_buf category message /\
  Log_line (error_markup_start_ s) (markup_end_ s) fmt_buf category message =
    Log_line "ERROR " EmptyString fmt_buf category message.
Proof.
  intros Hfail. cbv zeta.
  set (s0 := Log_init filename last_played_file playback_time_file (initial level w)).
  set (s := perform_all calls s0).
  destruct (perform_all_statics calls s0) as (_ & Hm & _). fold s in Hm.
  assert (Hp0 : markup s0 = plain).
  { destruct (Log_init_spec filename last_played_file playback_time_file level w)
      as (_ & [(_ & _ & Hp)|[(_ & _ & _ & _ & _ & Hp)|[(_ & _ & _ & _ & _ & _ & Hp)|
                (_ & F2 & F3 & _)]]]); auto.
    destruct Hfail; congruence. }
  assert (Hp : markup s = plain) by congruence.
  pose proof Hp0 as [= Hc0 _ _ _]. pose proof Hp as [= Hc Hi He Hr].
  unfold Log_color_allowed. rewrite Hi, He, Hr. repeat split; assumption.
Qed.

(** ** The operations as system calls *)

Lemma apply_effect_os (e : effect) (s : State) :
  exists w, apply_effect s e = set_os w s /\ w_fds w = w_fds (os s) /\ w_now w = w_now (os s).
Proof.
  destruct e as [fd buf|fd|]; simpl.
  - rewrite call_write_os. eexists; split; [reflexivity|]. apply sys_write_same_clock.
  - rewrite call_ftruncate_os. eexists; split; [reflexivity|]. apply sys_ftruncate0_same_clock.
  - eexists; split; [reflexivity|]. split; reflexivity.
Qed.

Lemma run_effects_os (es : list effect) (s : State) :
  exists w, run_effects es s = set_os w s /\ w_fds w = w_fds (os s) /\ w_now w = w_now (os s).
Proof.
  revert s. induction es as [|e es IH]; intros s; simpl.
  - exists (os s). now rewrite set_os_same.
  - destruct (apply_effect_os e s) as (w1 & He & Hf1 & Hn1).
    change (run_effects (e :: es) s) with (run_effects es (apply_effect s e)).
    rewrite He. destruct (IH (set_os w1 s)) as (w2 & -> & Hf2 & Hn2). simpl in *.
    exists w2. repeat split; congruence.
Qed.

(** Every operation is the sequence of its system calls. *)
Lemma invoke_effects (c : call) (s : State) : invoke c s = run_effects (effects c s) s.
Proof.
  destruct c as [cat msg|cat msg|level cat msg|t|t0 t1]; simpl.
  - unfold Log_info. now destruct (log_fd s <? 0).
  - reflexivity.
  - unfold print_log. now destruct (debug_level s <? level).
  - destruct (gmtime t) as [timeinfo|] eqn:Hg.
    + now rewrite (log_last_playback_converted _ _ _ Hg).
    + now rewrite (log_last_playback_null _ _ Hg).
  - rewrite log_playback_duration_steps. unfold run_effects.
    fold (playback_record t0 t1). fold (playing_time_message t0 t1).
    destruct (record_keeps_statics (playback_fd s) (playback_record t0 t1) s)
      as (Hd & Hl & Hi & He & Ht).
    destruct (Z.ltb_spec (debug_level s) 0).
    + simpl. apply print_log_off. lia.
    + simpl. rewrite print_log_on by lia. unfold log_line_in, log_target.
      now rewrite Hl, Hi, He, Ht.
Qed.

Lemma perform_effects (c : call) (s : State) :
  perform c s = run_effects (if terminated (os s) then [] else effects c s) s.
Proof.
  unfold perform. destruct (terminated (os s)); [reflexivity | apply invoke_effects].
Qed.

Lemma fd_path_same_fds (w w' : World) (fd : Z) :
  w_fds w' = w_fds w -> fd_path w' fd = fd_path w fd.
Proof. intros Hf. unfold fd_path. now rewrite Hf. Qed.

Lemma perform_all_fds (cs : list call) (s : State) :
  exists w, perform_all cs s = set_os w s /\ w_fds w = w_fds (os s) /\ w_now w = w_now (os s).
Proof.
  revert s. induction cs as [|c cs IH]; intros s.
  - exists (os s). now rewrite set_os_same.
  - change (perform_all (c :: cs) s) with (perform_all cs (perform c s)).
    rewrite perform_effects.
    destruct (run_effects_os (if terminated (os s) then [] else effects c s) s)
      as (w1 & -> & Hf1 & Hn1).
    destruct (IH (set_os w1 s)) as (w2 & -> & Hf2 & Hn2). simpl in *.
    exists w2. repeat split; congruence.
Qed.

Lemma sys_write_other_path (fd : Z) (buf : string) (w : World) (q : string) :
  fd_path w fd <> Some q -> w_fs (snd (sys_write fd buf w)) !! q = w_fs w !! q.
Proof.
  intros Hq. unfold sys_write, fd_node.
  destruct (fd_path w fd) as [p|]; [|reflexivity].
  destruct (w_fs w !! p) as [[d|d|e]|]; simpl; try reflexivity;
    apply lookup_insert_ne; congruence.
Qed.

Lemma sys_ftruncate0_other_path (fd : Z) (w : World) (q : string) :
  fd_path w fd <> Some q -> w_fs (snd (sys_ftruncate0 fd w)) !! q = w_fs w !! q.
Proof.
  intros Hq. unfold sys_ftruncate0, fd_node.
  destruct (fd_path w fd) as [p|]; [|reflexivity].
  destruct (w_fs w !! p) as [[d|d|e]|]; simpl; try reflexivity.
  apply lookup_insert_ne; congruence.
Qed.

Lemma apply_effect_other_path (e : effect) (s : State) (q : string) :
  fd_path (os s) (effect_fd e) <> Some q ->
  w_fs (os (apply_effect s e)) !! q = w_fs (os s) !! q.
Proof.
  destruct e as [fd buf|fd|]; simpl; intros Hq.
  - rewrite call_write_os. simpl. now apply sys_write_other_path.
  - rewrite call_ftruncate_os. simpl. now apply sys_ftruncate0_other_path.
  - reflexivity.
Qed.

(** System calls through descriptors that are not open on a path leave the
    path as it is. *)
Lemma run_effects_other_path (es : list effect) (s : State) (q : string) :
  (forall e, e ∈ es -> fd_path (os s) (effect_fd e) <> Some q) ->
  w_fs (os (run_effects es s)) !! q = w_fs (os s) !! q.
Proof.
  revert s. induction es as [|e es IH]; intros s Hes; [reflexivity|].
  change (run_effects (e :: es) s) with (run_effects es (apply_effect s e)).
  rewrite IH.
  - apply apply_effect_other_path, Hes. left.
  - intros e' He'. destruct (apply_effect_os e s) as (w1 & -> & Hf1 & _). simpl.
    rewrite (fd_path_same_fds _ _ _ Hf1). apply Hes. now right.
Qed.

(** A write never takes bytes away. *)
Lemma sys_write_path_data (fd : Z) (buf : string) (w : World) (q d : string) :
  path_data q w = Some d ->
  exists x, path_data q (snd (sys_write fd buf w)) = Some (d +:+ x).
Proof.
  intros Hd. destruct (decide (fd_path w fd = Some q)) as [Hq|Hq].
  - unfold path_data in *. unfold sys_write, fd_node. rewrite Hq.
    destruct (w_fs w !! q) as [[d'|d'|e]|] eqn:Hn; try discriminate;
      injection Hd as ->; simpl; rewrite lookup_insert_eq; now exists buf.
  - exists EmptyString. unfold path_data in *.
    now rewrite sys_write_other_path, string_app_empty_r.
Qed.

Lemma run_effects_appends (es : list effect) (s : State) (q d : string) :
  (forall fd, Truncate fd ∈ es -> fd_path (os s) fd <> Some q) ->
  path_data q (os s) = Some d ->
  exists x, path_data q (os (run_effects es s)) = Some (d +:+ x).
Proof.
  revert s d. induction es as [|e es IH]; intros s d Hes Hd.
  - exists EmptyString. now rewrite string_app_empty_r.
  - change (run_effects (e :: es) s) with (run_effects es (apply_effect s e)).
    assert (H1 : exists x, path_data q (os (apply_effect s e)) = Some (d +:+ x)).
    { destruct e as [fd buf|fd|]; simpl.
      - rewrite call_write_os. simpl. now apply sys_write_path_data.
      - exists EmptyString. rewrite call_ftruncate_os. simpl. unfold path_data in *.
        rewrite sys_ftruncate0_other_path, string_app_empty_r; [exact Hd|].
        apply Hes. left.
      - exists EmptyString. now rewrite string_app_empty_r. }
    destruct H1 as (x1 & H1).
    destruct (IH (apply_effect s e) (d +:+ x1)) as (x2 & H2); [|exact H1|].
    + intros fd Hfd. destruct (apply_effect_os e s) as (w1 & -> & Hf1 & _). simpl.
      rewrite (fd_path_same_fds _ _ _ Hf1). apply Hes. now right.
    + exists (x1 +:+ x2). now rewrite <- string_app_assoc.
Qed.

(** Only the two state files are ever truncated. *)
Lemma effects_truncates (c : call) (s : State) (fd : Z) :
  Truncate fd ∈ effects c s -> fd = last_played_fd s \/ fd = playback_fd s.
Proof.
  intros Hin%list_elem_of_In.
  destruct c as [cat msg|cat msg|level cat msg|t|t0 t1]; simpl in Hin.
  - destruct (log_fd s <? 0); simpl in Hin; intuition congruence.
  - intuition congruence.
  - destruct (debug_level s <? level); simpl in Hin; intuition congruence.
  - destruct (gmtime t); simpl in Hin; intuition congruence.
  - destruct (debug_level s <? 0); simpl in Hin; intuition congruence.
Qed.

(** X1. Whatever operations are called, in whatever order, a file that is
    neither the last-played file nor the playback-duration file only grows:
    what it held before is still there, followed by what was added. With
    the general log on such a file the log is append-only. *)
Theorem only_state_files_are_truncated (calls : list call) (s : State) (q d : string) :
  fd_path (os s) (last_played_fd s) <> Some q ->
  fd_path (os s) (playback_fd s) <> Some q ->
  path_data q (os s) = Some d ->
  exists added,
    path_data q (os (perform_all calls s)) = Some (d +:+ added) /\
    (fd_path (os s) (log_fd s) = Some q ->
     fd_data (log_fd s) (perform_all calls s) = Some (d +:+ added)).
Proof.
  revert s d. induction calls as [|c calls IH]; intros s d Hlp Hpb Hd.
  - exists EmptyString. rewrite string_app_empty_r.
    change (perform_all [] s) with s. split; [exact Hd|].
    intros Hq. unfold fd_data, fd_node. rewrite Hq. unfold path_data in Hd.
    now destruct (w_fs (os s) !! q) as [[x|x|x]|].
  - change (perform_all (c :: calls) s) with (perform_all calls (perform c s)).
    destruct (run_effects_appends (if terminated (os s) then [] else effects c s) s q d)
      as (x1 & H1); [|exact Hd|].
    { destruct (terminated (os s)); [intros fd Hin; inversion Hin|].
      intros fd [->| ->]%effects_truncates; assumption. }
    rewrite <- perform_effects in H1.
    destruct (perform_all_fds [c] s) as (w1 & Hw1 & Hf1 & _).
    change (perform_all [c] s) with (perform c s) in Hw1.
    destruct (IH (perform c s) (d +:+ x1)) as (x2 & H2 & H3); try exact H1.
    + rewrite Hw1. simpl. now rewrite (fd_path_same_fds _ _ _ Hf1).
    + rewrite Hw1. simpl. now rewrite (fd_path_same_fds _ _ _ Hf1).
    + exists (x1 +:+ x2). rewrite <- string_app_assoc. split; [exact H2|].
      intros Hq. rewrite Hw1 in H3. simpl in H3. rewrite <- Hw1 in H3.
      apply H3. now rewrite (fd_path_same_fds _ _ _ Hf1).
Qed.

(** X2. Each operation writes only through its own descriptor: [Log_info]
    through [log_fd], [Log_error] and [print_log] through [log_fd] or, with
    no general log, the standard error descriptor, [log_last_playback]
    through [last_played_fd], and [log_playback_duration] through
    [playback_fd] and the log target. A path none of these descriptors is
    open on keeps its content, and no operation opens or closes a
    descriptor or touches the clock. *)
Theorem operation_footprint (q : string) (s : State) :
  (forall category message,
     fd_path (os s) (log_fd s) <> Some q ->
     w_fs (os (Log_info category message s)) !! q = w_fs (os s) !! q) /\
  (forall category message,
     fd_path (os s) (log_target s) <> Some q ->
     w_fs (os (Log_error category message s)) !! q = w_fs (os s) !! q) /\
  (forall level category message,
     fd_path (os s) (log_target s) <> Some q ->
     w_fs (os (print_log level category message s)) !! q = w_fs (os s) !! q) /\
  (forall playstart,
     fd_path (os s) (last_played_fd s) <> Some q ->
     w_fs (os (log_last_playback playstart s)) !! q = w_fs (os s) !! q) /\
  (forall playstart playend,
     fd_path (os s) (playback_fd s) <> Some q ->
     fd_path (os s) (log_target s) <> Some q ->
     w_fs (os (log_playback_duration playstart playend s)) !! q = w_fs (os s) !! q) /\
  (forall c,
     w_fds (os (perform c s)) = w_fds (os s) /\
     gettimeofday (os (perform c s)) = gettimeofday (os s)).
Proof.
  assert (Hrun : forall c,
             (forall e, In e (effects c s) -> fd_path (os s) (effect_fd e) <> Some q) ->
             w_fs (os (invoke c s)) !! q = w_fs (os s) !! q).
  { intros c Hc. rewrite invoke_effects. apply run_effects_other_path.
    intros e He%list_elem_of_In. now apply Hc. }
  split; [|split; [|split; [|split; [|split]]]].
  - intros category message Hq. apply (Hrun (Call_Log_info category message)).
    simpl. destruct (log_fd s <? 0); simpl; intros e He; [contradiction|].
    destruct He as [<-|[]]. exact Hq.
  - intros category message Hq. apply (Hrun (Call_Log_error category message)).
    simpl. intros e [<-|[]]. exact Hq.
  - intros level category message Hq. apply (Hrun (Call_print_log level category message)).
    simpl. destruct (debug_level s <? level); simpl; intros e He; [contradiction|].
    destruct He as [<-|[]]. exact Hq.
  - intros playstart Hq. apply (Hrun (Call_log_last_playback playstart)).
    simpl. destruct (gmtime playstart); simpl.
    + intros e [<-|[<-|[]]]; exact Hq.
    + intros e [<-|[]]. discriminate.
  - intros playstart playend Hp Hq.
    apply (Hrun (Call_log_playback_duration playstart playend)).
    simpl. destruct (debug_level s <? 0); simpl.
    + intros e [<-|[<-|[]]]; exact Hp.
    + intros e [<-|[<-|[<-|[]]]]; assumption.
  - intros c. destruct (perform_all_fds [c] s) as (w1 & Hw1 & Hf1 & Hn1).
    change (perform_all [c] s) with (perform c s) in Hw1.
    rewrite Hw1. simpl. split; assumption.
Qed.

(** X3. The destinations stay as [Log_init] configured them: after any
    sequence of operations the three descriptor variables and the
    descriptor table are what [Log_init] left, so every configured
    descriptor is still open on the path it was given. *)
Theorem destinations_stay_bound
    (filename last_played_file playback_time_file : option string)
    (level : Z) (w : World) (calls : list call) :
  let s0 := Log_init filename last_played_file playback_time_file (initial level w) in
  let s := perform_all calls s0 in
  descriptors s = descriptors s0 /\
  w_fds (os s) = w_fds (os s0) /\
  debug_level s = level /\
  (0 <= log_fd s -> fd_path (os s) (log_fd s) = filename) /\
  (0 <= last_played_fd s -> fd_path (os s) (last_played_fd s) = last_played_file) /\
  (0 <= playback_fd s -> fd_path (os s) (playback_fd s) = playback_time_file).
Proof.
  cbv zeta.
  set (s0 := Log_init filename last_played_file playback_time_file (initial level w)).
  destruct (perform_all_fds calls s0) as (w1 & -> & Hf & _). simpl.
  assert (Hbound : forall name fd, fd = -1 \/ opened name fd s0 ->
                     0 <= fd -> fd_path w1 fd = name).
  { intros name fd Ho Hfd. rewrite (fd_path_same_fds _ _ _ Hf).
    destruct Ho as [->|Ho]; [lia|]. destruct name as [p|]; simpl in Ho; [tauto | lia]. }
  destruct (Log_init_spec filename last_played_file playback_time_file level w)
    as (Hl & [(_ & Hd & _)|[(_ & _ & O1 & E2 & E3 & _)|[(_ & _ & _ & O1 & O2 & E3 & _)|
              (_ & _ & _ & O1 & O2 & O3 & _)]]]); fold s0 in Hl, Hd || fold s0 in Hl;
    (split; [reflexivity|]); (split; [exact Hf|]); (split; [exact Hl|]).
  - injection Hd as -> -> ->. repeat split; intros; lia.
  - repeat split; apply Hbound; auto.
  - repeat split; apply Hbound; auto.
  - repeat split; apply Hbound; auto.
Qed.

Lemma fd_node_split (w : World) (fd : Z) (p : string) (n : node) :
  fd_node w fd = Some (p, n) <-> fd_path w fd = Some p /\ w_fs w !! p = Some n.
Proof.
  unfold fd_node. destruct (fd_path w fd) as [q|]; [|split; [discriminate | intros [[=] _]]].
  destruct (w_fs w !! q) as [m|] eqn:Hq; split.
  - intros [= -> ->]. auto.
  - intros [[= ->] Hn]. congruence.
  - discriminate.
  - intros [[= ->] Hn]. congruence.
Qed.

(** The state a record operation leaves: its file holds the record, every
    other path is as before. *)
Lemma record_regular (fd : Z) (buf p old : string) (s : State) (rest : list effect) :
  fd_node (os s) fd = Some (p, Regular old) ->
  (forall e, In e rest -> fd_path (os s) (effect_fd e) <> Some p) ->
  let s' := run_effects ([Truncate fd; Write fd buf] ++ rest) s in
  w_fs (os s') !! p = Some (Regular buf) /\
  forall q, q <> p ->
            (forall e, In e rest -> fd_path (os s) (effect_fd e) <> Some q) ->
            w_fs (os s') !! q = w_fs (os s) !! q.
Proof.
  intros Hn Hrest. cbv zeta. unfold run_effects. rewrite foldl_app.
  change (foldl apply_effect s [Truncate fd; Write fd buf])
    with (call_write fd buf (call_ftruncate fd s)).
  rewrite (truncate_write_regular _ _ _ _ _ Hn).
  set (s2 := set_os _ s).
  assert (Hfds : forall fd', fd_path (os s2) fd' = fd_path (os s) fd') by reflexivity.
  split.
  - fold (run_effects rest s2). rewrite run_effects_other_path.
    + subst s2. simpl. apply lookup_insert_eq.
    + intros e He%list_elem_of_In. rewrite Hfds. now apply Hrest.
  - intros q Hq Hother. fold (run_effects rest s2). rewrite run_effects_other_path.
    + subst s2. simpl. apply lookup_insert_ne. congruence.
    + intros e He%list_elem_of_In. rewrite Hfds. now apply Hother.
Qed.

Lemma sys_write_same_signal (fd : Z) (buf : string) (w : World) :
  w_signal (snd (sys_write fd buf w)) = w_signal w.
Proof. unfold sys_write. now destruct (fd_node w fd) as [[p [d|d|e]]|]. Qed.

Lemma sys_ftruncate0_same_signal (fd : Z) (w : World) :
  w_signal (snd (sys_ftruncate0 fd w)) = w_signal w.
Proof. unfold sys_ftruncate0. now destruct (fd_node w fd) as [[p [d|d|e]]|]. Qed.

(** System calls do not end the process. *)
Lemma run_effects_signal (es : list effect) (s : State) :
  ~ In Segfault es -> w_signal (os (run_effects es s)) = w_signal (os s).
Proof.
  revert s. induction es as [|e es IH]; intros s Hes; [reflexivity|].
  change (run_effects (e :: es) s) with (run_effects es (apply_effect s e)).
  rewrite IH by (intros Hin; apply Hes; now right).
  destruct e as [fd buf|fd|]; simpl.
  - rewrite call_write_os. apply sys_write_same_signal.
  - rewrite call_ftruncate_os. apply sys_ftruncate0_same_signal.
  - exfalso. apply Hes. now left.
Qed.

(** The one operation that can end the process is [log_last_playback], with
    a time that [gmtime] does not convert. *)
Lemma effects_segfault (c : call) (s : State) :
  In Segfault (effects c s) ->
  exists playstart, c = Call_log_last_playback playstart /\ gmtime playstart = None.
Proof.
  destruct c as [cat msg|cat msg|level cat msg|t|t0 t1]; simpl.
  - destruct (log_fd s <? 0); simpl; intuition discriminate.
  - intuition discriminate.
  - destruct (debug_level s <? level); simpl; intuition discriminate.
  - destruct (gmtime t) eqn:Hg; simpl; [intuition discriminate | eauto].
  - destruct (debug_level s <? 0); simpl; intuition discriminate.
Qed.

(** Every time among the calls of [log_last_playback] is one that [gmtime]
    converts. *)
Lemma perform_stays_alive (c : call) (s : State) :
  terminated (os s) = false ->
  (forall playstart, c = Call_log_last_playback playstart -> gmtime playstart <> None) ->
  terminated (os (perform c s)) = false.
Proof.
  intros Halive Hconv. rewrite perform_effects, Halive.
  unfold terminated in *. rewrite run_effects_signal; [exact Halive|].
  intros (t & -> & Hg)%effects_segfault. now apply (Hconv t).
Qed.

Lemma perform_all_stays_alive (cs : list call) (s : State) :
  terminated (os s) = false ->
  (forall playstart, In (Call_log_last_playback playstart) cs -> gmtime playstart <> None) ->
  terminated (os (perform_all cs s)) = false.
Proof.
  revert s. induction cs as [|c cs IH]; intros s Halive Hconv; [exact Halive|].
  change (perform_all (c :: cs) s) with (perform_all cs (perform c s)).
  apply IH.
  - apply perform_stays_alive; [exact Halive|]. intros t ->. apply Hconv. now left.
  - intros t Ht. apply Hconv. now right.
Qed.

Lemma state_files_step (c : call) (s : State) (p1 p2 o1 o2 : string) :
  fd_node (os s) (last_played_fd s) = Some (p1, Regular o1) ->
  fd_node (os s) (playback_fd s) = Some (p2, Regular o2) ->
  p1 <> p2 ->
  fd_path (os s) (log_target s) <> Some p1 ->
  fd_path (os s) (log_target s) <> Some p2 ->
  terminated (os s) = false ->
  (forall playstart, c = Call_log_last_playback playstart -> gmtime playstart <> None) ->
  (exists o1',
     w_fs (os (perform c s)) !! p1 = Some (Regular o1') /\
     Some o1' = match c with
                | Call_log_last_playback playstart => last_played_record <$> gmtime playstart
                | _ => Some o1
                end) /\
  w_fs (os (perform c s)) !! p2 =
    Some (Regular match c with
                  | Call_log_playback_duration playstart playend =>
                      playback_record playstart playend
                  | _ => o2
                  end).
Proof.
  intros H1 H2 Hne Ht1 Ht2 Halive Hconv.
  pose proof (proj1 (fd_node_split _ _ _ _) H1) as [Hp1 Hf1].
  pose proof (proj1 (fd_node_split _ _ _ _) H2) as [Hp2 Hf2].
  assert (Hlog : forall es,
             (forall e, In e es -> effect_fd e = log_target s) ->
             (exists o1', w_fs (os (run_effects es s)) !! p1 = Some (Regular o1') /\
                          Some o1' = Some o1) /\
             w_fs (os (run_effects es s)) !! p2 = Some (Regular o2)).
  { intros es Hes. rewrite !run_effects_other_path; [eauto| |];
      intros e He%list_elem_of_In; rewrite (Hes e He); assumption. }
  rewrite perform_effects, Halive.
  destruct c as [cat msg|cat msg|level cat msg|t|t0 t1]; simpl effects.
  - apply Hlog. destruct (Z.ltb_spec (log_fd s) 0); simpl; [tauto|].
    intros e [<-|[]]. simpl. unfold log_target.
    destruct (Z.ltb_spec (log_fd s) 0); [lia | reflexivity].
  - apply Hlog. intros e [<-|[]]. reflexivity.
  - apply Hlog. destruct (debug_level s <? level); simpl; [tauto|].
    intros e [<-|[]]. reflexivity.
  - destruct (gmtime t) as [timeinfo|] eqn:Hg; [|now destruct (Hconv t eq_refl)].
    destruct (record_regular (last_played_fd s) (last_played_record timeinfo) p1 o1 s [] H1)
      as [Hrec Hother]; [intros e []|].
    rewrite app_nil_r in Hrec, Hother. split; [eauto|].
    rewrite Hother; [exact Hf2 | congruence | intros e []].
  - set (rest := if debug_level s <? 0 then [] else _).
    assert (Hrest : forall e, In e rest -> effect_fd e = log_target s).
    { subst rest. destruct (debug_level s <? 0); simpl; [tauto|]. now intros e [<-|[]]. }
    destruct (record_regular (playback_fd s) (playback_record t0 t1) p2 o2 s rest H2)
      as [Hrec Hother].
    { intros e He. now rewrite (Hrest e He). }
    split; [|exact Hrec].
    exists o1. split; [|reflexivity].
    rewrite Hother; [exact Hf1 | congruence |].
    intros e He. now rewrite (Hrest e He).
Qed.

(** X4. Each state file holds one record, that of the last call. With the
    last-played and the playback-duration descriptors open on two different
    regular files that are not the log target, in a process that runs, and
    with start times that [gmtime] converts, after any sequence of
    operations the last-played file holds exactly the line of the last
    [log_last_playback] call and the playback-duration file exactly the line
    of the last [log_playback_duration] call; a file whose operation was not
    called holds what it held before. *)
Theorem state_files_hold_last_record (calls : list call) (s : State) (p1 p2 o1 o2 : string) :
  fd_node (os s) (last_played_fd s) = Some (p1, Regular o1) ->
  fd_node (os s) (playback_fd s) = Some (p2, Regular o2) ->
  p1 <> p2 ->
  fd_path (os s) (log_target s) <> Some p1 ->
  fd_path (os s) (log_target s) <> Some p2 ->
  terminated (os s) = false ->
  (forall playstart, In (Call_log_last_playback playstart) calls -> gmtime playstart <> None) ->
  fd_data (last_played_fd s) (perform_all calls s) =
    match last_played_call calls with
    | Some playstart => last_played_record <$> gmtime playstart
    | None => Some o1
    end /\
  fd_data (playback_fd s) (perform_all calls s) =
    Some match last_duration_call calls with
         | Some (playstart, playend) => playback_record playstart playend
         | None => o2
         end /\
  terminated (os (perform_all calls s)) = false.
Proof.
  revert s o1 o2.
  induction calls as [|c calls IH]; intros s o1 o2 H1 H2 Hne Ht1 Ht2 Halive Hconv.
  - change (perform_all [] s) with s. unfold fd_data. now rewrite H1, H2.
  - change (perform_all (c :: calls) s) with (perform_all calls (perform c s)).
    assert (Hc : forall t, c = Call_log_last_playback t -> gmtime t <> None).
    { intros t ->. apply Hconv. now left. }
    destruct (state_files_step c s p1 p2 o1 o2 H1 H2 Hne Ht1 Ht2 Halive Hc)
      as [(o1' & Hf1 & Ho1) Hf2].
    pose proof (perform_stays_alive c s Halive Hc) as Halive'.
    pose proof (proj1 (fd_node_split _ _ _ _) H1) as [Hp1 _].
    pose proof (proj1 (fd_node_split _ _ _ _) H2) as [Hp2 _].
    destruct (perform_all_fds [c] s) as (w1 & Hw1 & Hfds & _).
    change (perform_all [c] s) with (perform c s) in Hw1.
    assert (Hpath : forall fd, fd_path (os (perform c s)) fd = fd_path (os s) fd).
    { intros fd. rewrite Hw1. simpl. now apply fd_path_same_fds. }
    assert (Hst : last_played_fd (perform c s) = last_played_fd s /\
                  playback_fd (perform c s) = playback_fd s /\
                  log_target (perform c s) = log_target s)
      by (rewrite Hw1; repeat split).
    destruct Hst as (E1 & E2 & E3).
    specialize (IH (perform c s)). rewrite E1, E2, E3, !Hpath in IH.
    edestruct IH as (R1 & R2 & R3); try eassumption.
    + apply fd_node_split. rewrite Hpath. split; [exact Hp1 | exact Hf1].
    + apply fd_node_split. rewrite Hpath. split; [exact Hp2 | exact Hf2].
    + intros t Ht. apply Hconv. now right.
    + rewrite R1, R2. split; [|split; [|exact R3]].
      * simpl. destruct (last_played_call calls); [reflexivity|].
        rewrite Ho1. now destruct c.
      * simpl. destruct (last_duration_call calls) as [[a b]|]; [reflexivity|].
        now destruct c.
Qed.

(** ** [Log_init] and the operating system *)

Lemma open_or_return_cases (name : option string) (store : Z -> State -> State)
    (msg : string) (s : State) :
  match name with
  | None => open_or_return name store msg s = Next s
  | Some p =>
      match sys_open p (os s) with
      | (Ok v, w') =>
          0 <= v /\ open_or_return name store msg s = Next (store v (set_os w' s))
      | (Err e, _) =>
          open_or_return name store msg s = Return (perror msg e (store (-1) s))
      end
  end.
Proof.
  destruct name as [p|]; simpl; [|reflexivity].
  unfold syscall. destruct (sys_open p (os s)) as [[v|e] w'] eqn:Ho; simpl.
  - destruct (sys_open_ok _ _ _ _ Ho) as (Hv & _).
    destruct (Z.ltb_spec v 0); [lia | auto].
  - destruct (sys_open_err _ _ _ _ Ho) as [-> _]. now rewrite set_os_same.
Qed.

Lemma extends_by_refl (names : list (option string)) (w : World) : extends_by names w w.
Proof.
  repeat split; auto.
  intros q. destruct (w_fs w !! q); auto.
Qed.

(** What a successful [open] does to the files: nothing, or it adds the
    path as an empty regular file. *)
Lemma sys_open_files (p : string) (w w' : World) (v : Z) :
  sys_open p w = (Ok v, w') ->
  w_fs w' = w_fs w \/
  (w_fs w !! p = None /\ w_fs w' = <[p := Regular EmptyString]> (w_fs w)).
Proof.
  unfold sys_open. destruct (String.eqb p EmptyString); [discriminate|].
  destruct (alloc_fd (w_fds w) p) as [i fds].
  destruct (w_fs w !! p) as [[d|d|e]|] eqn:Hp; intros [= <- <-]; simpl; auto.
Qed.

Lemma sys_open_fst (q : string) (w w' : World) :
  (forall e, w_fs w !! q = Some (Denied e) -> w_fs w' !! q = Some (Denied e)) ->
  open_fails q w = true -> fst (sys_open q w') = fst (sys_open q w).
Proof.
  intros Hden. rewrite open_fails_alt. unfold sys_open.
  destruct (String.eqb q EmptyString); [reflexivity|]. simpl.
  destruct (w_fs w !! q) as [[d|d|e]|] eqn:Hq; try discriminate.
  intros _. now rewrite (Hden e eq_refl).
Qed.

Lemma extends_by_open (names : list (option string)) (w wc w' : World) (p : string) (v : Z) :
  extends_by names w wc -> In (Some p) names -> sys_open p wc = (Ok v, w') ->
  extends_by names w w'.
Proof.
  intros (Hnow & Hkeep & Hsame & Hgrown) Hin Ho.
  destruct (sys_open_ok _ _ _ _ Ho) as (_ & _ & _ & _ & _ & Hnow' & Hst).
  pose proof (keeps_open _ _ _ _ Ho) as Hk.
  assert (Hfs : forall q, q <> p \/ is_Some (w_fs wc !! q) -> w_fs w' !! q = w_fs wc !! q).
  { intros q Hq. destruct (sys_open_files _ _ _ _ Ho) as [->|[Hnone ->]]; [reflexivity|].
    apply lookup_insert_ne. intros ->. destruct Hq as [Hq|[n Hq]]; congruence. }
  repeat split.
  - congruence.
  - intros fd q Hq. apply Hk, Hkeep, Hq.
  - rewrite Hst. apply Hsame.
  - intros Hq. rewrite <- (proj2 (Hsame q) Hq). apply sys_open_fst; [|now rewrite (proj1 (Hsame q))].
    intros e He. rewrite Hfs; [exact He | right; eauto].
  - intros q. specialize (Hgrown q). destruct (w_fs w !! q) as [n|].
    + rewrite Hfs; [exact Hgrown | right; eauto].
    + destruct (decide (q = p)) as [->|Hqp].
      * destruct (sys_open_files _ _ _ _ Ho) as [->|[Hnone ->]]; [exact Hgrown|].
        right. split; [apply lookup_insert_eq | exact Hin].
      * rewrite Hfs; [exact Hgrown | now left].
Qed.

(** One [open] block of [Log_init] seen from the start of [Log_init]: it
    falls through with a world that extends the first one, or it returns
    after one [perror]. *)
Lemma open_or_return_world (names : list (option string)) (w : World)
    (name : option string) (store : Z -> State -> State) (msg : string) (s : State) :
  (forall v t, os (store v t) = os t) ->
  In name names -> extends_by names w (os s) ->
  match open_or_return name store msg s with
  | Next s' => attempt_fails name w = false /\ extends_by names w (os s')
  | Return s' =>
      attempt_fails name w = true /\
      os s' = snd (sys_write STDERR_FILENO
                     (msg +:+ ": " +:+ strerror (open_errno name w) +:+ nl) (os s))
  end.
Proof.
  intros Hstore Hin Hext.
  pose proof (open_or_return_cases name store msg s) as Hc.
  destruct name as [p|]; [|rewrite Hc; auto].
  destruct Hext as (Hnow & Hkeep & Hsame & Hgrown).
  destruct (sys_open p (os s)) as [[v|e] w'] eqn:Ho.
  - destruct Hc as [Hv ->]. rewrite Hstore. simpl.
    destruct (sys_open_ok _ _ _ _ Ho) as (_ & Hf & _).
    rewrite (proj1 (Hsame p)) in Hf. split; [exact Hf|].
    eapply extends_by_open; [|exact Hin|exact Ho].
    exact (conj Hnow (conj Hkeep (conj Hsame Hgrown))).
  - rewrite Hc. rewrite perror_os, Hstore. simpl.
    destruct (sys_open_err _ _ _ _ Ho) as [_ Hf].
    rewrite (proj1 (Hsame p)) in Hf. split; [exact Hf|].
    rewrite <- (proj2 (Hsame p) Hf), Ho. reflexivity.
Qed.

(** The operating system after [Log_init]: with no failure it extends the
    first one by the opened files; with a failure it is such an extension
    followed by the one [perror] of the first destination that failed. *)
Lemma Log_init_world (filename last_played_file playback_time_file : option string)
    (level : Z) (w : World) :
  let s := Log_init filename last_played_file playback_time_file (initial level w) in
  let names := [filename; last_played_file; playback_time_file] in
  match first_failure filename last_played_file playback_time_file w with
  | None => extends_by names w (os s)
  | Some (msg, name) =>
      exists wc, extends_by names w wc /\
                 os s = snd (sys_write STDERR_FILENO
                               (msg +:+ ": " +:+ strerror (open_errno name w) +:+ nl) wc)
  end.
Proof.
  cbv zeta. unfold Log_init, first_failure.
  set (names := [filename; last_played_file; playback_time_file]).
  pose proof (open_or_return_world names w filename set_log_fd "Cannot open logfile"
                (initial level w) (fun _ _ => eq_refl) (or_introl eq_refl)
                (extends_by_refl names w)) as H1.
  destruct (open_or_return filename set_log_fd "Cannot open logfile" (initial level w))
    as [s1|s1]; destruct H1 as [-> H1]; cbn [flow_bind flow_end]; [|eauto using extends_by_refl].
  pose proof (open_or_return_world names w last_played_file set_last_played_fd
                "Cannot open last played file" s1 (fun _ _ => eq_refl)
                (or_intror (or_introl eq_refl)) H1) as H2.
  destruct (open_or_return last_played_file set_last_played_fd
              "Cannot open last played file" s1)
    as [s2|s2]; destruct H2 as [-> H2]; cbn [flow_bind flow_end]; [|eauto].
  pose proof (open_or_return_world names w playback_time_file set_playback_fd
                "Cannot open playback time file" s2 (fun _ _ => eq_refl)
                (or_intror (or_intror (or_introl eq_refl))) H2) as H3.
  destruct (open_or_return playback_time_file set_playback_fd
              "Cannot open playback time file" s2)
    as [s3|s3]; destruct H3 as [-> H3]; cbn [flow_bind flow_end]; [|eauto].
  now destruct (enable_color _ =? 0).
Qed.

Lemma fresh_open_after_open (w w0 w' : World) (p : string) (v : Z) :
  (forall fd q, fd_path w fd = Some q -> fd_path w0 fd = Some q) ->
  sys_open p w0 = (Ok v, w') ->
  (forall fd q, fd_path w fd = Some q -> fd_path w' fd = Some q) /\
  fresh_open w w' v /\
  (forall fd, fresh_open w w0 fd -> fresh_open w w' fd /\ apart v fd /\ apart fd v).
Proof.
  intros Hkeep Ho.
  destruct (sys_open_ok _ _ _ _ Ho) as (Hv & _ & Hp & Hfree & Hother & _).
  pose proof (keeps_open _ _ _ _ Ho) as Hk.
  split; [intros fd q Hq; apply Hk, Hkeep, Hq|]. split.
  - right. split; [exact Hv|]. split; [|congruence].
    destruct (fd_path w v) as [q|] eqn:Hq; [|reflexivity].
    apply Hkeep in Hq. congruence.
  - intros fd [->|(Hfd & Hw & Hopen)].
    + split; [now left|]. split; [right; now left | now left].
    + assert (Hne : fd <> v) by (intros ->; contradiction).
      split; [|split; right; right; congruence].
      right. split; [exact Hfd|]. split; [exact Hw|]. now rewrite Hother.
Qed.

Lemma fresh_open_after_write (w w0 : World) (fd0 : Z) (buf : string) (fd : Z) :
  fresh_open w w0 fd -> fresh_open w (snd (sys_write fd0 buf w0)) fd.
Proof.
  intros [->|(Hfd & Hw & Hopen)]; [now left|]. right. split; [exact Hfd|]. split; [exact Hw|].
  now rewrite (fd_path_same_fds _ _ _ (proj1 (sys_write_same_clock fd0 buf w0))).
Qed.

Lemma open_or_return_well_opened (w : World) (name : option string)
    (store : Z -> State -> State) (msg : string) (s : State) :
  store = set_log_fd \/ store = set_last_played_fd \/ store = set_playback_fd ->
  well_opened w s -> well_opened w (flow_end (open_or_return name store msg s)).
Proof.
  intros Hstore (Hkeep & F1 & F2 & F3 & A12 & A13 & A23).
  pose proof (open_or_return_cases name store msg s) as Hc.
  destruct name as [p|]; [|rewrite Hc; repeat split; assumption].
  destruct (sys_open p (os s)) as [[v|e] w'] eqn:Ho.
  - destruct Hc as [Hv ->]. cbn [flow_end].
    destruct (fresh_open_after_open w (os s) w' p v Hkeep Ho) as (Hkeep' & Fv & Hold).
    destruct (Hold _ F1) as (F1' & Av1 & A1v).
    destruct (Hold _ F2) as (F2' & Av2 & A2v).
    destruct (Hold _ F3) as (F3' & Av3 & A3v).
    destruct Hstore as [->|[->| ->]]; unfold well_opened; simpl; auto 10.
  - rewrite Hc. cbn [flow_end]. rewrite perror_os.
    assert (Hkeep' : forall t, os t = os s ->
              forall fd q, fd_path w fd = Some q ->
                fd_path (snd (sys_write STDERR_FILENO
                                (msg +:+ ": " +:+ strerror e +:+ nl) (os t))) fd = Some q).
    { intros t -> fd q Hq. apply keeps_write, Hkeep, Hq. }
    assert (Hminus : forall wc b, fresh_open w wc (-1) /\ apart (-1) b /\ apart b (-1)).
    { intros wc b. split; [now left|]. split; [now left | right; now left]. }
    destruct Hstore as [->|[->| ->]]; unfold well_opened; simpl;
      (split; [now apply Hkeep'|]);
      repeat split; try apply Hminus; try (now apply fresh_open_after_write); assumption.
Qed.

Lemma flow_bind_keeps (P : State -> Prop) (f : flow) (k : State -> flow) :
  P (flow_end f) -> (forall s, P s -> P (flow_end (k s))) -> P (flow_end (flow_bind f k)).
Proof. destruct f as [s|s]; simpl; auto. Qed.

Lemma Log_init_well_opened (filename last_played_file playback_time_file : option string)
    (level : Z) (w : World) :
  well_opened w (Log_init filename last_played_file playback_time_file (initial level w)).
Proof.
  assert (H0 : well_opened w (initial level w)).
  { unfold well_opened. simpl. split; [auto|].
    repeat split; now left. }
  unfold Log_init.
  apply flow_bind_keeps; [apply open_or_return_well_opened; auto|].
  intros s1 H1. apply flow_bind_keeps; [apply open_or_return_well_opened; auto|].
  intros s2 H2. apply flow_bind_keeps; [apply open_or_return_well_opened; auto|].
  intros s3 H3. now destruct (enable_color _ =? 0).
Qed.

(** ** What [Log_init] does not open *)

Lemma first_failure_none (filename last_played_file playback_time_file : option string)
    (w : World) :
  attempt_fails filename w = false -> attempt_fails last_played_file w = false ->
  attempt_fails playback_time_file w = false ->
  first_failure filename last_played_file playback_time_file w = None.
Proof. unfold first_failure. now intros -> -> ->. Qed.

Lemma fd_path_nonneg (w : World) (fd : Z) (q : string) : fd_path w fd = Some q -> 0 <= fd.
Proof. unfold fd_path. destruct (Z.ltb_spec fd 0); [discriminate | lia]. Qed.

(** A write creates no file. *)
Lemma sys_write_absent (fd : Z) (buf : string) (w : World) (q : string) :
  w_fs w !! q = None -> w_fs (snd (sys_write fd buf w)) !! q = None.
Proof.
  intros Hq. destruct (decide (fd_path w fd = Some q)) as [Hfd|Hfd].
  - unfold sys_write, fd_node. now rewrite Hfd, Hq.
  - now rewrite sys_write_other_path.
Qed.

Lemma accounted_open (w : World) (s s' : State) (p : string) (v : Z) (w' : World) :
  accounted w s -> sys_open p (os s) = (Ok v, w') -> os s' = w' ->
  (forall fd, 0 <= fd -> holds s fd -> holds s' fd) -> holds s' v ->
  accounted w s'.
Proof.
  intros [Hfd Hfs] Ho Hos Hold Hv.
  destruct (sys_open_ok _ _ _ _ Ho) as (_ & _ & Hp & _ & Hother & _).
  pose proof (keeps_open _ _ _ _ Ho) as Hk.
  split; rewrite Hos.
  - intros fd q Hq. destruct (decide (fd = v)) as [->|Hne]; [now right|].
    rewrite Hother in Hq by exact Hne.
    destruct (Hfd fd q Hq) as [Hw|Hh]; [now left|].
    right. apply Hold; [eapply fd_path_nonneg, Hq | exact Hh].
  - intros q Hnone Hsome. destruct (decide (q = p)) as [->|Hqp]; [now exists v|].
    assert (Hsame : w_fs w' !! q = w_fs (os s) !! q).
    { destruct (sys_open_files _ _ _ _ Ho) as [->|[_ ->]]; [reflexivity|].
      apply lookup_insert_ne. congruence. }
    rewrite Hsame in Hsome. destruct (Hfs q Hnone Hsome) as (fd & Hh & Hq).
    exists fd. split; [|now apply Hk].
    apply Hold; [eapply fd_path_nonneg, Hq | exact Hh].
Qed.

Lemma accounted_write (w : World) (s s' : State) (fd0 : Z) (buf : string) :
  accounted w s -> os s' = snd (sys_write fd0 buf (os s)) ->
  (forall fd, 0 <= fd -> holds s fd -> holds s' fd) ->
  accounted w s'.
Proof.
  intros [Hfd Hfs] Hos Hold.
  assert (Hpath : forall fd, fd_path (os s') fd = fd_path (os s) fd).
  { intros fd. rewrite Hos. apply fd_path_same_fds, sys_write_same_clock. }
  split.
  - intros fd q Hq. rewrite Hpath in Hq.
    destruct (Hfd fd q Hq) as [Hw|Hh]; [now left|].
    right. apply Hold; [eapply fd_path_nonneg, Hq | exact Hh].
  - intros q Hnone Hsome.
    assert (Hbefore : w_fs (os s) !! q <> None).
    { intros Habs. apply Hsome. rewrite Hos. now apply sys_write_absent. }
    destruct (Hfs q Hnone Hbefore) as (fd & Hh & Hq).
    exists fd. rewrite Hpath. split; [|exact Hq].
    apply Hold; [eapply fd_path_nonneg, Hq | exact Hh].
Qed.

(** One [open] block of [Log_init], for a descriptor variable that
    [store] assigns and that holds -1 before. *)
Lemma open_or_return_accounted (w : World) (name : option string)
    (store : Z -> State -> State) (msg : string) (s : State) :
  (forall x t, os (store x t) = os t) ->
  (forall x w' fd, 0 <= fd -> holds s fd -> holds (store x (set_os w' s)) fd) ->
  (forall x w', holds (store x (set_os w' s)) x) ->
  accounted w s ->
  match open_or_return name store msg s with
  | Next s' =>
      accounted w s' /\ ((name = None /\ s' = s) \/ exists v w', s' = store v (set_os w' s))
  | Return s' => accounted w s'
  end.
Proof.
  intros Hos Hkeep Hnew Hacc.
  pose proof (open_or_return_cases name store msg s) as Hc.
  destruct name as [p|]; [|rewrite Hc; auto].
  destruct (sys_open p (os s)) as [[v|e] w'] eqn:Ho.
  - destruct Hc as [Hv ->]. split; [|right; eauto].
    eapply accounted_open; [exact Hacc | exact Ho | now rewrite Hos | apply Hkeep | apply Hnew].
  - rewrite Hc, perror_os.
    eapply accounted_write; [exact Hacc | simpl; now rewrite Hos |].
    intros fd Hfd Hh. pose proof (Hkeep (-1) (os s) fd Hfd Hh) as Hk.
    rewrite set_os_same in Hk. exact Hk.
Qed.

Lemma Log_init_accounted (filename last_played_file playback_time_file : option string)
    (level : Z) (w : World) :
  accounted w (Log_init filename last_played_file playback_time_file (initial level w)).
Proof.
  assert (H0 : accounted w (initial level w)).
  { split; simpl; [auto | intros q Hq Hn; contradiction]. }
  unfold Log_init.
  assert (H1 := open_or_return_accounted w filename set_log_fd "Cannot open logfile"
                  (initial level w) (fun _ _ => eq_refl)).
  assert (P1 : forall x w' fd, 0 <= fd -> holds (initial level w) fd ->
                 holds (set_log_fd x (set_os w' (initial level w))) fd)
    by (unfold holds; simpl; intros; lia).
  assert (N1 : forall x w', holds (set_log_fd x (set_os w' (initial level w))) x)
    by (unfold holds; simpl; intros; lia).
  specialize (H1 P1 N1 H0).
  destruct (open_or_return filename set_log_fd "Cannot open logfile" (initial level w))
    as [s1|s1]; cbn [flow_bind flow_end]; [|exact H1].
  destruct H1 as [A1 S1].
  assert (K1 : last_played_fd s1 = -1 /\ playback_fd s1 = -1)
    by (destruct S1 as [[_ ->]|(v & w' & ->)]; split; reflexivity).
  destruct K1 as [K12 K13].
  assert (H2 := open_or_return_accounted w last_played_file set_last_played_fd
                  "Cannot open last played file" s1 (fun _ _ => eq_refl)).
  assert (P2 : forall x w' fd, 0 <= fd -> holds s1 fd ->
                 holds (set_last_played_fd x (set_os w' s1)) fd)
    by (unfold holds; simpl; rewrite K12; intros; lia).
  assert (N2 : forall x w', holds (set_last_played_fd x (set_os w' s1)) x)
    by (unfold holds; simpl; intros; lia).
  specialize (H2 P2 N2 A1).
  destruct (open_or_return last_played_file set_last_played_fd
              "Cannot open last played file" s1)
    as [s2|s2]; cbn [flow_bind flow_end]; [|exact H2].
  destruct H2 as [A2 S2].
  assert (K2 : playback_fd s2 = -1)
    by (destruct S2 as [[_ ->]|(v & w' & ->)]; exact K13).
  assert (H3 := open_or_return_accounted w playback_time_file set_playback_fd
                  "Cannot open playback time file" s2 (fun _ _ => eq_refl)).
  assert (P3 : forall x w' fd, 0 <= fd -> holds s2 fd ->
                 holds (set_playback_fd x (set_os w' s2)) fd)
    by (unfold holds; simpl; rewrite K2; intros; lia).
  assert (N3 : forall x w', holds (set_playback_fd x (set_os w' s2)) x)
    by (unfold holds; simpl; intros; lia).
  specialize (H3 P3 N3 A2).
  destruct (open_or_return playback_time_file set_playback_fd
              "Cannot open playback time file" s2)
    as [s3|s3]; cbn [flow_bind flow_end]; [|exact H3].
  destruct H3 as [A3 _].
  destruct (enable_color _ =? 0); exact A3.
Qed.

(** C1, amended. [Log_init] opens the destinations in the order general
    log, last-played file, playback-duration file and returns at the first
    one that fails: a destination is configured exactly when its path was
    given, [open] accepts it, and no destination before it failed. What is
    configured refers to its path, and what is not holds -1 and was not
    opened: after a failure the terminal check is not reached, every
    descriptor that [Log_init] opened is the value of the variable of a
    configured destination, and every file that it created is the file of a
    configured destination. *)
Theorem Log_init_stops_at_first_failure
    (filename last_played_file playback_time_file : option string) (level : Z) (w : World) :
  let s := Log_init filename last_played_file playback_time_file (initial level w) in
  (0 <= log_fd s <-> attempt_succeeds filename w = true) /\
  (0 <= last_played_fd s <->
   attempt_fails filename w = false /\ attempt_succeeds last_played_file w = true) /\
  (0 <= playback_fd s <->
   attempt_fails filename w = false /\ attempt_fails last_played_file w = false /\
   attempt_succeeds playback_time_file w = true) /\
  (0 <= log_fd s -> fd_path (os s) (log_fd s) = filename) /\
  (0 <= last_played_fd s -> fd_path (os s) (last_played_fd s) = last_played_file) /\
  (0 <= playback_fd s -> fd_path (os s) (playback_fd s) = playback_time_file) /\
  (log_fd s < 0 -> log_fd s = -1) /\
  (last_played_fd s < 0 -> last_played_fd s = -1) /\
  (playback_fd s < 0 -> playback_fd s = -1) /\
  (first_failure filename last_played_file playback_time_file w <> None ->
   markup s = plain) /\
  (forall fd q, fd_path (os s) fd = Some q ->
     fd_path w fd = Some q \/
     (fd = log_fd s /\ 0 <= log_fd s /\ filename = Some q) \/
     (fd = last_played_fd s /\ 0 <= last_played_fd s /\ last_played_file = Some q) \/
     (fd = playback_fd s /\ 0 <= playback_fd s /\ playback_time_file = Some q)) /\
  (forall q, w_fs w !! q = None -> w_fs (os s) !! q <> None ->
     (0 <= log_fd s /\ filename = Some q) \/
     (0 <= last_played_fd s /\ last_played_file = Some q) \/
     (0 <= playback_fd s /\ playback_time_file = Some q)).
Proof.
  cbv zeta.
  pose proof (Log_init_configured filename last_played_file playback_time_file level w)
    as (C1 & C2 & C3 & P1 & P2 & P3 & M1 & M2 & M3).
  pose proof (Log_init_accounted filename last_played_file playback_time_file level w)
    as [Hfd Hfs].
  set (s := Log_init filename last_played_file playback_time_file (initial level w)) in *.
  assert (Hname : forall fd q, holds s fd -> fd_path (os s) fd = Some q ->
            (fd = log_fd s /\ 0 <= log_fd s /\ filename = Some q) \/
            (fd = last_played_fd s /\ 0 <= last_played_fd s /\ last_played_file = Some q) \/
            (fd = playback_fd s /\ 0 <= playback_fd s /\ playback_time_file = Some q)).
  { intros fd q Hh Hq. pose proof (fd_path_nonneg _ _ _ Hq) as Hpos.
    destruct Hh as [->|[->| ->]].
    - left. rewrite (P1 Hpos) in Hq. auto.
    - right; left. rewrite (P2 Hpos) in Hq. auto.
    - right; right. rewrite (P3 Hpos) in Hq. auto. }
  do 9 (split; [assumption|]). split; [|split].
  - intros Hfail.
    destruct (Log_init_spec filename last_played_file playback_time_file level w)
      as (_ & [(_ & _ & Hm)|[(_ & _ & _ & _ & _ & Hm)|[(_ & _ & _ & _ & _ & _ & Hm)|
                (F1 & F2 & F3 & _)]]]); try exact Hm.
    now rewrite (first_failure_none _ _ _ _ F1 F2 F3) in Hfail.
  - intros fd q Hq. destruct (Hfd fd q Hq) as [Hw|Hh]; [now left|].
    right. now apply Hname.
  - intros q Hnone Hsome. destruct (Hfs q Hnone Hsome) as (fd & Hh & Hq).
    destruct (Hname fd q Hh Hq) as [(_ & H & E)|[(_ & H & E)|(_ & H & E)]]; auto.
Qed.

(** X5. [Log_init] never takes a descriptor that was open when it was
    called and never closes or redirects one: every descriptor it stores
    was free before, the descriptors of the configured destinations differ
    from each other (also when two destinations name one path), and with
    the standard error descriptor open none of them is that descriptor. *)
Theorem Log_init_descriptors_are_new
    (filename last_played_file playback_time_file : option string) (level : Z) (w : World) :
  let s := Log_init filename last_played_file playback_time_file (initial level w) in
  (forall fd q, fd_path w fd = Some q -> fd_path (os s) fd = Some q) /\
  (0 <= log_fd s -> fd_path w (log_fd s) = None) /\
  (0 <= last_played_fd s -> fd_path w (last_played_fd s) = None) /\
  (0 <= playback_fd s -> fd_path w (playback_fd s) = None) /\
  (0 <= log_fd s -> 0 <= last_played_fd s -> log_fd s <> last_played_fd s) /\
  (0 <= log_fd s -> 0 <= playback_fd s -> log_fd s <> playback_fd s) /\
  (0 <= last_played_fd s -> 0 <= playback_fd s -> last_played_fd s <> playback_fd s) /\
  (fd_path w STDERR_FILENO <> None ->
   log_fd s <> STDERR_FILENO /\ last_played_fd s <> STDERR_FILENO /\
   playback_fd s <> STDERR_FILENO).
Proof.
  cbv zeta.
  destruct (Log_init_well_opened filename last_played_file playback_time_file level w)
    as (Hkeep & F1 & F2 & F3 & A12 & A13 & A23).
  set (s := Log_init filename last_played_file playback_time_file (initial level w)) in *.
  assert (Hfree : forall fd, fresh_open w (os s) fd -> 0 <= fd -> fd_path w fd = None).
  { intros fd [->|(_ & Hw & _)] Hfd; [lia | exact Hw]. }
  assert (Hapart : forall a b, apart a b -> 0 <= a -> 0 <= b -> a <> b).
  { intros a b [->|[->|Hab]] Ha Hb; [lia | lia | exact Hab]. }
  assert (Hstd : forall fd, fresh_open w (os s) fd -> fd_path w STDERR_FILENO <> None ->
                            fd <> STDERR_FILENO).
  { intros fd [->|(_ & Hw & _)] Herr; [discriminate | congruence]. }
  repeat split; auto.
Qed.

Lemma fd_data_path (fd : Z) (s : State) :
  fd_data fd s = match fd_path (os s) fd with
                 | Some p => path_data p (os s)
                 | None => None
                 end.
Proof.
  unfold fd_data, fd_node, path_data. destruct (fd_path (os s) fd) as [p|]; [|reflexivity].
  now destruct (w_fs (os s) !! p) as [[d|d|e]|].
Qed.

Lemma usable_data (s : State) (fd : Z) : usable s fd -> 0 <= fd -> is_Some (fd_data fd s).
Proof.
  intros [->|(p & Hp & Hd)] Hfd; [lia|]. now rewrite fd_data_path, Hp.
Qed.

(** What [open] opened is a file or a terminal, and what was there before
    is there after. *)
Lemma sys_open_path_data (p : string) (w w' : World) (v : Z) :
  sys_open p w = (Ok v, w') ->
  is_Some (path_data p w') /\
  forall q, is_Some (path_data q w) -> path_data q w' = path_data q w.
Proof.
  intros Ho. pose proof (sys_open_files _ _ _ _ Ho) as Hfs.
  split.
  - unfold sys_open in Ho. unfold path_data.
    destruct (String.eqb p EmptyString); [discriminate|].
    destruct (alloc_fd (w_fds w) p) as [i fds].
    destruct (w_fs w !! p) as [[d|d|e]|] eqn:Hp; try discriminate;
      injection Ho as <- <-; simpl; rewrite ?Hp, ?lookup_insert_eq; eauto.
  - intros q [d Hd]. unfold path_data in *. destruct Hfs as [->|[Hnone ->]]; [reflexivity|].
    rewrite lookup_insert_ne; [reflexivity|]. intros ->. now rewrite Hnone in Hd.
Qed.

Lemma usable_after_open (s : State) (w' : World) (p : string) (v fd : Z) :
  sys_open p (os s) = (Ok v, w') -> usable s fd ->
  usable (set_os w' s) v /\ usable (set_os w' s) fd.
Proof.
  intros Ho Hfd. destruct (sys_open_ok _ _ _ _ Ho) as (_ & _ & Hp & _).
  destruct (sys_open_path_data _ _ _ _ Ho) as [Hnew Hold]. split.
  - right. exists p. simpl. auto.
  - destruct Hfd as [->|(q & Hq & Hd)]; [now left|]. right. exists q. simpl. split.
    + eapply keeps_open; eassumption.
    + now rewrite Hold.
Qed.

Lemma usable_after_write (s : State) (fd0 : Z) (buf : string) (fd : Z) :
  usable s fd -> usable (set_os (snd (sys_write fd0 buf (os s))) s) fd.
Proof.
  intros [->|(q & Hq & [d Hd])]; [now left|]. right. exists q. simpl. split.
  - now rewrite (fd_path_same_fds _ _ _ (proj1 (sys_write_same_clock fd0 buf (os s)))).
  - destruct (sys_write_path_data fd0 buf (os s) q d Hd) as (x & ->). eauto.
Qed.

Lemma usable_after_truncate (s : State) (fd0 fd : Z) :
  usable s fd -> usable (set_os (snd (sys_ftruncate0 fd0 (os s))) s) fd.
Proof.
  intros [->|(q & Hq & [d Hd])]; [now left|]. right. exists q. simpl. split.
  - now rewrite (fd_path_same_fds _ _ _ (proj1 (sys_ftruncate0_same_clock fd0 (os s)))).
  - unfold path_data in *. destruct (decide (fd_path (os s) fd0 = Some q)) as [H0|H0].
    + unfold sys_ftruncate0, fd_node. rewrite H0.
      destruct (w_fs (os s) !! q) as [[d0|d0|e0]|] eqn:Hp0; simpl;
        rewrite ?lookup_insert_eq, ?Hp0; eauto.
    + rewrite sys_ftruncate0_other_path by exact H0. rewrite Hd. eauto.
Qed.

Lemma open_or_return_usable (name : option string) (store : Z -> State -> State)
    (msg : string) (s : State) :
  store = set_log_fd \/ store = set_last_played_fd \/ store = set_playback_fd ->
  all_usable s -> all_usable (flow_end (open_or_return name store msg s)).
Proof.
  intros Hstore (U1 & U2 & U3).
  pose proof (open_or_return_cases name store msg s) as Hc.
  destruct name as [p|]; [|rewrite Hc; repeat split; assumption].
  destruct (sys_open p (os s)) as [[v|e] w'] eqn:Ho.
  - destruct Hc as [Hv ->]. cbn [flow_end].
    destruct (usable_after_open s w' p v _ Ho U1) as [Uv U1'].
    destruct (usable_after_open s w' p v _ Ho U2) as [_ U2'].
    destruct (usable_after_open s w' p v _ Ho U3) as [_ U3'].
    destruct Hstore as [->|[->| ->]]; repeat split; assumption.
  - rewrite Hc. cbn [flow_end]. rewrite perror_os.
    pose proof (fun fd U => usable_after_write s STDERR_FILENO
                              (msg +:+ ": " +:+ strerror e +:+ nl) fd U) as Hw.
    destruct Hstore as [->|[->| ->]]; repeat split;
      first [now left | now apply Hw].
Qed.

Lemma Log_init_usable (filename last_played_file playback_time_file : option string)
    (level : Z) (w : World) :
  all_usable (Log_init filename last_played_file playback_time_file (initial level w)).
Proof.
  assert (H0 : all_usable (initial level w)) by (repeat split; now left).
  unfold Log_init.
  apply flow_bind_keeps; [apply open_or_return_usable; auto|].
  intros s1 H1. apply flow_bind_keeps; [apply open_or_return_usable; auto|].
  intros s2 H2. apply flow_bind_keeps; [apply open_or_return_usable; auto|].
  intros s3 H3. now destruct (enable_color _ =? 0).
Qed.

Lemma perform_all_usable (cs : list call) (s : State) :
  all_usable s -> all_usable (perform_all cs s).
Proof.
  assert (Heff : forall es t, all_usable t -> all_usable (run_effects es t)).
  { induction es as [|e es IH]; intros t Ht; [exact Ht|].
    change (run_effects (e :: es) t) with (run_effects es (apply_effect t e)).
    apply IH. destruct Ht as (U1 & U2 & U3).
    destruct e as [fd buf|fd|]; simpl.
    - rewrite call_write_os. repeat split; now apply usable_after_write.
    - rewrite call_ftruncate_os. repeat split; now apply usable_after_truncate.
    - repeat split; assumption. }
  revert s. induction cs as [|c cs IH]; intros s Hs; [exact Hs|].
  change (perform_all (c :: cs) s) with (perform_all cs (perform c s)).
  apply IH. rewrite perform_effects. now apply Heff.
Qed.

(** X6. A configured destination accepts writes, after [Log_init] and
    after any further operations: each descriptor variable that is not
    negative is open on a file or a terminal. In particular [Log_info] with
    a configured general log always appends its line to the log. *)
Theorem configured_destinations_are_writable
    (filename last_played_file playback_time_file : option string)
    (level : Z) (w : World) (calls : list call) (category message : string) :
  let s := perform_all calls
             (Log_init filename last_played_file playback_time_file (initial level w)) in
  (0 <= log_fd s -> is_Some (fd_data (log_fd s) s)) /\
  (0 <= last_played_fd s -> is_Some (fd_data (last_played_fd s) s)) /\
  (0 <= playback_fd s -> is_Some (fd_data (playback_fd s) s)) /\
  (0 <= log_fd s ->
   exists d, fd_data (log_fd s) s = Some d /\
             fd_data (log_fd s) (Log_info category message s) =
             Some (d +:+ log_line_in s (info_markup_start_ s) category message)).
Proof.
  cbv zeta.
  destruct (perform_all_usable calls _
              (Log_init_usable filename last_played_file playback_time_file level w))
    as (U1 & U2 & U3).
  set (s := perform_all calls _) in *.
  split; [now apply usable_data|]. split; [now apply usable_data|].
  split; [now apply usable_data|].
  intros Hfd. destruct (usable_data _ _ U1 Hfd) as [d Hd]. exists d. split; [exact Hd|].
  unfold Log_info. destruct (Z.ltb_spec (log_fd s) 0); [lia|].
  rewrite Log_internal_writes. now apply call_write_appends.
Qed.


(** X7. A [Log_init] in which no [open] fails writes nothing and truncates
    nothing: the clock and every file and terminal that existed are as
    before, a file that did not exist is there afterwards only if it is one
    of the three paths, and then it is an empty regular file. *)
Theorem successful_Log_init_keeps_files
    (filename last_played_file playback_time_file : option string) (level : Z) (w : World) :
  attempt_fails filename w = false -> attempt_fails last_played_file w = false ->
  attempt_fails playback_time_file w = false ->
  let s := Log_init filename last_played_file playback_time_file (initial level w) in
  let requested q :=
    filename = Some q \/ last_played_file = Some q \/ playback_time_file = Some q in
  gettimeofday (os s) = gettimeofday w /\
  (forall q n, w_fs w !! q = Some n -> w_fs (os s) !! q = Some n) /\
  (forall q, w_fs w !! q = None -> ~ requested q -> w_fs (os s) !! q = None) /\
  (forall q, w_fs w !! q = None -> requested q ->
             w_fs (os s) !! q = Some (Regular EmptyString)).
Proof.
  intros F1 F2 F3. cbv zeta.
  pose proof (Log_init_world filename last_played_file playback_time_file level w) as Hw.
  cbv zeta in Hw. rewrite (first_failure_none _ _ _ _ F1 F2 F3) in Hw.
  destruct Hw as (Hnow & _ & _ & Hgrown).
  pose proof (Log_init_usable filename last_played_file playback_time_file level w)
    as (U1 & U2 & U3).
  destruct (Log_init_spec filename last_played_file playback_time_file level w)
    as (_ & [(F1' & _)|[(_ & F2' & _)|[(_ & _ & F3' & _)|
              (_ & _ & _ & O1 & O2 & O3 & _)]]]); try congruence.
  set (s := Log_init filename last_played_file playback_time_file (initial level w)) in *.
  assert (Hthere : forall name fd q, opened name fd s -> usable s fd -> name = Some q ->
                     is_Some (path_data q (os s))).
  { intros name fd q Ho Hu ->. destruct Ho as [Hfd Hq].
    destruct Hu as [->|(p & Hp & Hd)]; [lia|]. congruence. }
  split; [exact Hnow|]. split; [|split].
  - intros q n Hq. specialize (Hgrown q). now rewrite Hq in Hgrown.
  - intros q Hq Hreq. specialize (Hgrown q). rewrite Hq in Hgrown.
    destruct Hgrown as [Hnone|[_ Hin]]; [exact Hnone|].
    exfalso. apply Hreq. simpl in Hin. intuition congruence.
  - intros q Hq Hreq. specialize (Hgrown q). rewrite Hq in Hgrown.
    destruct Hgrown as [Hnone|[Hempty _]]; [|exact Hempty].
    assert (Hsome : is_Some (path_data q (os s))).
    { destruct Hreq as [Hr|[Hr|Hr]]; eauto. }
    unfold path_data in Hsome. rewrite Hnone in Hsome. now destruct Hsome.
Qed.

Lemma fd_data_os (fd : Z) (s t : State) : os s = os t -> fd_data fd s = fd_data fd t.
Proof. unfold fd_data. now intros ->. Qed.

(** X8. With the standard error descriptor open, a [Log_init] in which no
    [open] fails writes nothing to it, and one in which an [open] fails
    appends exactly one line to it: the text for the first destination that
    failed, in the order general log, last-played file, playback-duration
    file, followed by the error text of that [open]. No other file that
    existed is changed. *)
Theorem Log_init_reports_first_failure
    (filename last_played_file playback_time_file : option string) (level : Z) (w : World)
    (e d : string) :
  fd_path w STDERR_FILENO = Some e -> path_data e w = Some d ->
  let s := Log_init filename last_played_file playback_time_file (initial level w) in
  match first_failure filename last_played_file playback_time_file w with
  | None => fd_data STDERR_FILENO s = Some d
  | Some (msg, name) =>
      fd_data STDERR_FILENO s =
        Some (d +:+ msg +:+ ": " +:+ strerror (open_errno name w) +:+ nl) /\
      forall q n, q <> e -> w_fs w !! q = Some n -> w_fs (os s) !! q = Some n
  end.
Proof.
  intros He Hd. cbv zeta.
  pose proof (Log_init_world filename last_played_file playback_time_file level w) as Hw.
  cbv zeta in Hw.
  assert (Hsame : forall wc, extends_by [filename; last_played_file; playback_time_file] w wc ->
                    fd_path wc STDERR_FILENO = Some e /\ path_data e wc = Some d /\
                    forall q n, w_fs w !! q = Some n -> w_fs wc !! q = Some n).
  { intros wc (_ & Hkeep & _ & Hgrown).
    assert (Hold : forall q n, w_fs w !! q = Some n -> w_fs wc !! q = Some n).
    { intros q n Hq. specialize (Hgrown q). now rewrite Hq in Hgrown. }
    split; [now apply Hkeep|]. split; [|exact Hold].
    unfold path_data in *. destruct (w_fs w !! e) as [n|] eqn:Hn; [|discriminate].
    now rewrite (Hold e n Hn). }
  destruct (first_failure filename last_played_file playback_time_file w) as [[msg name]|].
  - destruct Hw as (wc & Hext & Hos). destruct (Hsame wc Hext) as (He' & Hd' & Hold).
    set (text := msg +:+ ": " +:+ strerror (open_errno name w) +:+ nl) in *.
    split.
    + rewrite (fd_data_os _ _ (call_write STDERR_FILENO text (set_os wc (initial level w)))).
      * apply call_write_appends. rewrite fd_data_path. simpl. now rewrite He'.
      * rewrite call_write_os. exact Hos.
    + intros q n Hq Hn. rewrite Hos, sys_write_other_path; [now apply Hold|].
      rewrite He'. congruence.
  - destruct (Hsame _ Hw) as (He' & Hd' & _). now rewrite fd_data_path, He'.
Qed.

Lemma attempt_fails_empty (w : World) : attempt_fails (Some EmptyString) w = true.
Proof. reflexivity. Qed.

(** X9. An empty path is not skipped: [Log_init] hands it to [open], which
    fails, and [Log_init] returns there. With an empty log path the result
    is the first state with only the line of [perror] for ENOENT written;
    with an empty last-played or playback-duration path that destination
    and the ones after it stay unconfigured and the markup stays plain. *)
Theorem empty_path_ends_Log_init
    (filename last_played_file playback_time_file : option string) (level : Z) (w : World) :
  let s := Log_init filename last_played_file playback_time_file (initial level w) in
  (filename = Some EmptyString ->
   s = perror "Cannot open logfile" ENOENT (initial level w)) /\
  (last_played_file = Some EmptyString ->
   last_played_fd s = -1 /\ playback_fd s = -1 /\ markup s = plain) /\
  (playback_time_file = Some EmptyString -> playback_fd s = -1 /\ markup s = plain).
Proof.
  cbv zeta. split; [intros ->; reflexivity|].
  destruct (Log_init_spec filename last_played_file playback_time_file level w)
    as (_ & [(_ & Hd & Hm)|[(_ & _ & _ & E2 & E3 & Hm)|[(_ & F2 & _ & _ & _ & E3 & Hm)|
              (_ & F2 & F3 & _)]]]).
  - injection Hd as _ E2 E3. auto.
  - auto.
  - split; [|auto]. intros ->. discriminate F2.
  - split; intros ->; [discriminate F2 | discriminate F3].
Qed.

(** ** Lines and records *)

Lemma string_length_app (a b : string) :
  String.length (a +:+ b) = (String.length a + String.length b)%nat.
Proof.
  induction a as [|c a IH]; [reflexivity|].
  rewrite string_app_cons. simpl. now rewrite IH.
Qed.

(** X10. [Log_internal] never drops or merges newlines of the message: the
    line is the prefix, the message as it is, and one newline more only
    when the message does not end with one. It ends with as many newlines
    as the message, and with one for a message that has none; an empty
    message gives a line of the prefix alone. *)
Theorem Log_internal_keeps_message (fd : Z) (markup_start category message : string)
    (s : State) :
  let prefix := Log_prefix markup_start (markup_end_ s)
                  (strftime_localtime (gettimeofday (os s))) category in
  let line := log_line_in s markup_start category message in
  Log_internal fd markup_start category message s = call_write fd line s /\
  line = prefix +:+ message +:+ (if already_newline message then EmptyString else nl) /\
  trailing_newlines line = Nat.max 1 (trailing_newlines message) /\
  String.length line =
    (String.length prefix + String.length message +
     if already_newline message then 0 else 1)%nat /\
  (message = EmptyString -> line = prefix +:+ nl).
Proof.
  cbv zeta. unfold log_line_in. split; [reflexivity|]. split; [apply Log_line_eq|].
  split; [apply Log_line_newlines|]. split.
  - rewrite Log_line_eq, !string_length_app.
    destruct (already_newline message); simpl; lia.
  - intros ->. now rewrite Log_line_eq.
Qed.

Lemma fmt_02d_two_digits (z : Z) : 0 <= z < 100 -> String.length (fmt_02d z) = 2%nat.
Proof.
  intros Hz.
  assert (Hall : forallb (fun n => (String.length (fmt_02d (Z.of_nat n)) =? 2)%nat)
                   (seq 0 100) = true) by (vm_compute; reflexivity).
  rewrite forallb_forall in Hall.
  specialize (Hall (Z.to_nat z)). rewrite Z2Nat.id in Hall by lia.
  apply Nat.eqb_eq, Hall, in_seq. lia.
Qed.

(** X11. The three fields of "Total playing time" add up to the duration:
    for a difference an [int] can hold, 3600 * hours + 60 * minutes +
    seconds is that difference, minutes and seconds are below 60 in size,
    and all three have the sign of the difference. For a duration that is
    not negative the minutes and the seconds are printed with exactly two
    digits. *)
Theorem playing_time_fields_add_up (playstart playend : Z) (s : State) :
  INT_MIN <= playend - playstart <= INT_MAX ->
  exists hours minutes seconds,
    log_playback_duration playstart playend s =
      print_log 0 "transport"
        ("Total playing time " +:+ fmt_02d hours +:+ ":" +:+ fmt_02d minutes +:+ ":" +:+
         fmt_02d seconds +:+ nl)
        (call_write (playback_fd s) (playback_record playstart playend)
           (call_ftruncate (playback_fd s) s)) /\
    3600 * hours + 60 * minutes + seconds = playend - playstart /\
    Z.abs minutes < 60 /\ Z.abs seconds < 60 /\
    (0 <= playend - playstart ->
     0 <= hours /\ 0 <= minutes /\ 0 <= seconds /\
     String.length (fmt_02d minutes) = 2%nat /\ String.length (fmt_02d seconds) = 2%nat) /\
    (playend - playstart <= 0 -> hours <= 0 /\ minutes <= 0 /\ seconds <= 0).
Proof.
  intros Hint.
  exists (Z.quot (playend - playstart) 3600),
         (Z.rem (Z.quot (playend - playstart) 60) 60),
         (Z.rem (playend - playstart) 60).
  split.
  { rewrite log_playback_duration_steps. unfold playback_record, difftime.
    now rewrite (int_of_double_exact _ Hint). }
  set (r := playend - playstart).
  assert (H3600 : Z.quot r 3600 = Z.quot (Z.quot r 60) 60)
    by (rewrite Z.quot_quot by lia; reflexivity).
  pose proof (Z.quot_rem' r 60) as Hr.
  pose proof (Z.quot_rem' (Z.quot r 60) 60) as Hq.
  assert (Hpos : 0 <= r -> 0 <= Z.quot r 60 /\ 0 <= Z.quot (Z.quot r 60) 60 /\
                           0 <= Z.rem r 60 < 60 /\ 0 <= Z.rem (Z.quot r 60) 60 < 60).
  { intros H0. assert (0 <= Z.quot r 60) by (apply Z.quot_pos; lia).
    repeat split; try (apply Z.quot_pos; lia); try (apply Z.rem_bound_pos; lia). }
  assert (Hneg : r <= 0 -> Z.quot r 60 <= 0 /\ Z.quot (Z.quot r 60) 60 <= 0 /\
                           -60 < Z.rem r 60 <= 0 /\ -60 < Z.rem (Z.quot r 60) 60 <= 0).
  { intros H0.
    assert (Hopp : forall x, x <= 0 -> Z.quot x 60 <= 0).
    { intros x Hx. assert (Ho : Z.quot (- x) 60 = - Z.quot x 60) by (apply Z.quot_opp_l; lia).
      assert (0 <= Z.quot (- x) 60) by (apply Z.quot_pos; lia). lia. }
    assert (Hq0 : Z.quot r 60 <= 0) by now apply Hopp.
    assert (Hq1 : Z.quot (Z.quot r 60) 60 <= 0) by now apply Hopp.
    pose proof (Z.rem_nonpos r 60 ltac:(lia) H0).
    pose proof (Z.rem_nonpos (Z.quot r 60) 60 ltac:(lia) Hq0).
    pose proof (Z.rem_bound_abs r 60 ltac:(lia)).
    pose proof (Z.rem_bound_abs (Z.quot r 60) 60 ltac:(lia)). lia. }
  rewrite H3600.
  pose proof (Z.rem_bound_abs r 60 ltac:(lia)) as Ha1.
  pose proof (Z.rem_bound_abs (Z.quot r 60) 60 ltac:(lia)) as Ha2.
  change (Z.abs 60) with 60 in Ha1, Ha2.
  split; [lia|]. split; [exact Ha2|]. split; [exact Ha1|]. split.
  - intros H0. destruct (Hpos H0) as (P1 & P2 & P3 & P4).
    repeat split; try lia; apply fmt_02d_two_digits; lia.
  - intros H0. destruct (Hneg H0) as (N1 & N2 & N3 & N4). lia.
Qed.

(** X12. A state file that cannot be truncated collects the records: when
    the last-played descriptor is open on a terminal, [ftruncate] fails,
    its result is ignored, and each [log_last_playback] with a start time
    that [gmtime] converts adds its line after what is there. *)
Theorem records_accumulate_on_a_terminal (T1 T2 : Z) (timeinfo1 timeinfo2 : tm) (s : State)
    (p shown : string) :
  fd_node (os s) (last_played_fd s) = Some (p, Terminal shown) ->
  gmtime T1 = Some timeinfo1 -> gmtime T2 = Some timeinfo2 ->
  call_ftruncate (last_played_fd s) s = s /\
  fd_data (last_played_fd s) (log_last_playback T1 s) =
    Some (shown +:+ last_played_record timeinfo1) /\
  fd_data (last_played_fd s) (log_last_playback T2 (log_last_playback T1 s)) =
    Some (shown +:+ last_played_record timeinfo1 +:+ last_played_record timeinfo2).
Proof.
  intros Hn Hg1 Hg2.
  assert (Hstep : forall t ti st d,
             gmtime t = Some ti ->
             fd_node (os st) (last_played_fd st) = Some (p, Terminal d) ->
             log_last_playback t st = call_write (last_played_fd st) (last_played_record ti) st /\
             fd_node (os (log_last_playback t st)) (last_played_fd st) =
               Some (p, Terminal (d +:+ last_played_record ti))).
  { intros t ti st d Hg Hd.
    assert (Htr : call_ftruncate (last_played_fd st) st = st).
    { unfold call_ftruncate, syscall, sys_ftruncate0. rewrite Hd. apply set_os_same. }
    assert (Hrun : log_last_playback t st =
                   call_write (last_played_fd st) (last_played_record ti) st).
    { rewrite (log_last_playback_converted _ _ _ Hg). now rewrite Htr. }
    split; [exact Hrun|]. rewrite Hrun, call_write_os. unfold sys_write. rewrite Hd.
    simpl. now apply (fd_node_insert_same _ _ _ _ _ Hd). }
  destruct (Hstep T1 timeinfo1 s shown Hg1 Hn) as [Hrun1 Hn1].
  assert (Hfd : last_played_fd (log_last_playback T1 s) = last_played_fd s)
    by (rewrite Hrun1, call_write_os; reflexivity).
  rewrite <- Hfd in Hn1. destruct (Hstep T2 timeinfo2 _ _ Hg2 Hn1) as [_ Hn2].
  rewrite Hfd in Hn1, Hn2.
  split; [|split].
  - unfold call_ftruncate, syscall, sys_ftruncate0. rewrite Hn. apply set_os_same.
  - unfold fd_data. now rewrite Hn1.
  - unfold fd_data. rewrite Hn2. now rewrite string_app_assoc.
Qed.

(** X13. With the general log on a terminal and no state file that fails
    to open, [Log_init] switches the highlighting on for good: after any
    further operations [Log_color_allowed] is 1, an informational line is
    the bold INFO prefix, and an error line the bold red ERROR prefix, each
    followed by the bracket with time and category, the reset sequence and
    the message. *)
Theorem terminal_log_lines_are_highlighted
    (filename last_played_file playback_time_file : option string)
    (level : Z) (w : World) (calls : list call) (category message : string) :
  let s0 := Log_init filename last_played_file playback_time_file (initial level w) in
  let s := perform_all calls s0 in
  let fmt_buf := strftime_localtime (gettimeofday (os s)) in
  let rest := "[" +:+ fmt_buf +:+ " | " +:+ category +:+ "]" +:+ String ESC "[0m " +:+
              message +:+ (if already_newline message then EmptyString else nl) in
  attempt_fails last_played_file w = false -> attempt_fails playback_time_file w = false ->
  isatty (log_fd s0) (os s0) = 1 ->
  Log_color_allowed s = 1 /\
  log_line_in s (info_markup_start_ s) category message =
    String ESC "[1mINFO  " +:+ rest /\
  log_line_in s (error_markup_start_ s) category message =
    String ESC "[1m" +:+ String ESC "[31mERROR " +:+ rest /\
  esc_free (log_line_in s (info_markup_start_ s) category message) = false.
Proof.
  cbv zeta. intros F2 F3 Htty.
  set (s0 := Log_init filename last_played_file playback_time_file (initial level w)) in *.
  destruct (perform_all_statics calls s0) as (_ & Hm & _).
  assert (Hhigh : markup s0 = highlighted).
  { destruct (Log_init_spec filename last_played_file playback_time_file level w)
      as (_ & [(_ & Hd & _)|[(_ & F2' & _)|[(_ & _ & F3' & _)|
                (_ & _ & _ & _ & _ & _ & [[_ Hp]|[Ht _]])]]]); try congruence.
    - fold s0 in Hd. injection Hd as Hl _ _. rewrite Hl in Htty.
      unfold isatty in Htty. rewrite fd_node_negative in Htty by lia. discriminate.
    - exact Hp.
    - fold s0 in Ht. congruence. }
  rewrite Hhigh in Hm. injection Hm as Hc Hi He Hr.
  unfold Log_color_allowed, log_line_in. rewrite Hc, Hi, He, Hr.
  split; [reflexivity|]. rewrite !Log_line_eq. unfold Log_prefix, kInfoHighlight,
    kErrorHighlight, kTermReset.
  split; [|split].
  - now rewrite !string_app_assoc.
  - now rewrite !string_app_assoc.
  - now rewrite !string_app_assoc.
Qed.

(** ** Decimal digits *)

Lemma string_of_uint_length (d : Decimal.uint) :
  String.length (NilEmpty.string_of_uint d) = Decimal.nb_digits d.
Proof. induction d; simpl; congruence. Qed.

(** A little-endian numeral without zeros at its high end is at least the
    power of ten of its length, divided by ten. *)
Lemma of_lu_lower_bound (l : Decimal.uint) :
  DecimalFacts.nztail l = l ->
  l = Decimal.Nil \/
  (10 ^ N.of_nat (Decimal.nb_digits l) <= 10 * DecimalPos.Unsigned.of_lu l)%N.
Proof.
  induction l as [|d IH|d IH|d IH|d IH|d IH|d IH|d IH|d IH|d IH|d IH]; intros Hn;
    [now left|right..];
    cbn [Decimal.nb_digits DecimalPos.Unsigned.of_lu];
    rewrite Nat2N.inj_succ, N.pow_succ_r';
    simpl in Hn.
  1:{ assert (Hd : DecimalFacts.nztail d = d /\ d <> Decimal.Nil).
      { clear IH. destruct (DecimalFacts.nztail d); try discriminate;
          injection Hn as <-; (split; [reflexivity | discriminate]). }
      destruct Hd as [Hd Hnil]. destruct (IH Hd) as [->|Hb]; [contradiction | lia]. }
  all: injection Hn as Hn; destruct (IH Hn) as [->|Hb]; [simpl; lia | lia].
Qed.

Lemma to_uint_digits (p : positive) :
  (10 ^ N.of_nat (Decimal.nb_digits (Pos.to_uint p)) <= 10 * N.pos p)%N.
Proof.
  unfold Pos.to_uint. rewrite DecimalFacts.nb_digits_rev.
  set (l := Pos.to_little_uint p).
  assert (Hval : DecimalPos.Unsigned.of_lu l = N.pos p).
  { rewrite <- DecimalPos.Unsigned.of_lu_rev. apply DecimalPos.Unsigned.of_to. }
  assert (Hnorm : DecimalFacts.lnorm l = l).
  { rewrite <- DecimalPos.Unsigned.to_of_lu, Hval. reflexivity. }
  assert (Hn : DecimalFacts.nztail l = l).
  { unfold DecimalFacts.lnorm in Hnorm.
    destruct (DecimalFacts.nztail l) eqn:Hd; try exact Hnorm.
    rewrite <- Hnorm in Hval. discriminate. }
  destruct (of_lu_lower_bound l Hn) as [Hnil|Hb].
  - rewrite Hnil in Hval. discriminate.
  - now rewrite Hval in Hb.
Qed.

(** [%d] of an [int] takes at most eleven bytes. *)
Lemma fmt_d_length (z : Z) : INT_MIN <= z <= INT_MAX -> (String.length (fmt_d z) <= 11)%nat.
Proof.
  unfold INT_MIN, INT_MAX. intros Hz.
  assert (Hdigits : forall p, (N.pos p <= 2 ^ 31)%N ->
            (String.length (NilZero.string_of_uint (Pos.to_uint p)) <= 10)%nat).
  { intros p Hp. pose proof (to_uint_digits p) as Hd.
    pose proof (DecimalPos.Unsigned.to_uint_nonnil p) as Hnn.
    assert (Hs : NilZero.string_of_uint (Pos.to_uint p) =
                 NilEmpty.string_of_uint (Pos.to_uint p))
      by (destruct (Pos.to_uint p); [contradiction|reflexivity..]).
    rewrite Hs, string_of_uint_length.
    assert (Hlt : (10 ^ N.of_nat (Decimal.nb_digits (Pos.to_uint p)) < 10 ^ 11)%N).
    { eapply N.le_lt_trans; [exact Hd|]. change (10 ^ 11)%N with 100000000000%N.
      change (2 ^ 31)%N with 2147483648%N in Hp. lia. }
    apply N.pow_lt_mono_r_iff in Hlt; lia. }
  unfold fmt_d. destruct z as [|p|p]; simpl.
  - lia.
  - specialize (Hdigits p). change (2 ^ 31)%N with 2147483648%N in Hdigits. lia.
  - specialize (Hdigits p). change (2 ^ 31)%N with 2147483648%N in Hdigits. lia.
Qed.

Lemma int_of_double_range (d : Z) : INT_MIN <= int_of_double d <= INT_MAX.
Proof.
  unfold int_of_double, INT_MIN, INT_MAX.
  destruct (Z.leb_spec (- 2 ^ 31) d); simpl; [|lia].
  destruct (Z.leb_spec d (2 ^ 31 - 1)); lia.
Qed.

(** X14. The record of the playback-duration file always fits the buffer
    of 80 bytes that [sprintf] fills: whatever the two times are, the line
    UPNP_TOTAL=<int> with its newline is at most 23 bytes long, 24 with the
    terminating NUL. *)
Theorem playback_record_fits_buffer (playstart playend : Z) (s : State) :
  log_playback_duration playstart playend s =
    print_log 0 "transport" (playing_time_message playstart playend)
      (call_write (playback_fd s) (playback_record playstart playend)
         (call_ftruncate (playback_fd s) s)) /\
  (13 <= String.length (playback_record playstart playend) <= 23)%nat /\
  (String.length (playback_record playstart playend) + 1 <= 80)%nat.
Proof.
  split; [apply log_playback_duration_steps|].
  unfold playback_record. rewrite !string_length_app.
  pose proof (fmt_d_length _ (int_of_double_range (difftime playend playstart))) as Hlen.
  assert (Hone : (1 <= String.length (fmt_d (int_of_double (difftime playend playstart))))%nat).
  { unfold fmt_d. destruct (int_of_double (difftime playend playstart)) as [|p|p]; simpl;
      try lia.
    pose proof (DecimalPos.Unsigned.to_uint_nonnil p) as Hnn.
    destruct (Pos.to_uint p); [contradiction|simpl; lia..]. }
  simpl. lia.
Qed.

End LoggingFacts.

(** ** The theorems at concrete inputs *)

#[local] Existing Instance UtcLibc.libc.

Lemma emitted_line_one_newline_witness :
  (trailing_newlines ("hello" +:+ nl) <= 1)%nat /\
  trailing_newlines
    (Log_line (info_markup_start_ Sample.all_files) (markup_end_ Sample.all_files)
       (strftime_localtime (gettimeofday (os Sample.all_files))) "upnp" ("hello" +:+ nl)) = 1%nat.
Proof.
  assert (Hm : (trailing_newlines ("hello" +:+ nl) <= 1)%nat) by (vm_compute; lia).
  split; [exact Hm|].
  exact (proj1 (proj2 (proj2 (proj2
    (emitted_line_one_newline 0 "upnp" ("hello" +:+ nl) Sample.all_files Hm))))).
Defined.



Lemma failed_state_file_keeps_plain_markup_witness :
  attempt_fails (Some "/proc/version") Sample.world = true /\
  isatty (log_fd Sample.terminal_log) (os Sample.terminal_log) = 1 /\
  Log_color_allowed Sample.terminal_log = 0 /\
  markup (perform_all [Call_Log_error "upnp" "no renderer"] Sample.terminal_log) = plain.
Proof.
  assert (H1 : attempt_fails (Some "/proc/version") Sample.world = true) by reflexivity.
  split; [exact H1|]. split; [reflexivity|].
  destruct (failed_state_file_keeps_plain_markup (Some "/dev/tty1") (Some "/proc/version") None
              0 Sample.world [Call_Log_error "upnp" "no renderer"] "upnp" "x" (or_introl H1))
    as (H0 & _ & _ & Hm & _).
  split; [exact H0 | exact Hm].
Defined.

Lemma Log_init_stops_at_first_failure_witness :
  log_fd Corners.stopped = 3 /\
  fd_path (os Corners.stopped) (log_fd Corners.stopped) = Some "/dev/tty1" /\
  last_played_fd Corners.stopped = -1 /\
  playback_fd Corners.stopped = -1 /\
  markup Corners.stopped = plain /\
  w_fs (os Corners.stopped) !! "/run/playback" = None /\
  (forall fd, fd_path (os Corners.stopped) fd <> Some "/run/playback").
Proof.
  destruct (Log_init_stops_at_first_failure (Some "/dev/tty1") (Some "/proc/version")
              (Some "/run/playback") 0 Sample.world)
    as (_ & _ & Hpb & Hlog & _ & _ & _ & Hlp & Hpbm & Hplain & Htable & Hfiles).
  fold Corners.stopped in Hpb, Hlog, Hlp, Hpbm, Hplain, Htable, Hfiles.
  assert (Hno : ~ 0 <= playback_fd Corners.stopped).
  { intros Hfd. apply Hpb in Hfd. destruct Hfd as (_ & Hfail & _). discriminate Hfail. }
  split; [reflexivity|]. split; [apply Hlog; vm_compute; discriminate|].
  split; [apply Hlp; reflexivity|]. split; [apply Hpbm; lia|].
  split; [apply Hplain; vm_compute; discriminate|]. split.
  - destruct (w_fs (os Corners.stopped) !! "/run/playback") as [n|] eqn:Hq; [|reflexivity].
    exfalso.
    destruct (Hfiles "/run/playback") as [(_ & E)|[(_ & E)|(H & _)]];
      [vm_compute; reflexivity | now rewrite Hq | discriminate E | discriminate E |
       exact (Hno H)].
  - intros fd Hfd.
    destruct (Htable fd "/run/playback" Hfd) as [Hw|[(_ & _ & E)|[(_ & _ & E)|(_ & H & _)]]];
      [|discriminate E | discriminate E | exact (Hno H)].
    unfold fd_path in Hw. destruct (fd <? 0); [discriminate|].
    change (w_fds Sample.world) with [Some "/dev/pts/0"; Some "/dev/pts/0"; Some "/dev/pts/0"]
      in Hw.
    destruct (Z.to_nat fd) as [|[|[|n]]]; simpl in Hw; discriminate.
Defined.


Lemma info_disabled_iff_log_not_opened_witness :
  Log_info_enabled Sample.nothing = 0 /\
  Log_info "upnp" "started" Sample.nothing = Sample.nothing /\
  fd_data STDERR_FILENO (Log_error "upnp" "no renderer" Sample.nothing) =
    Some ("ERROR [2023-11-14 22:13:20 | upnp] no renderer" +:+ nl).
Proof.
  destruct (info_disabled_iff_log_not_opened None None None 0 Sample.world [] "upnp" "started")
    as (_ & Hoff & Hinfo).
  destruct (info_disabled_iff_log_not_opened None None None 0 Sample.world [] "upnp" "no renderer")
    as (_ & _ & Herror).
  assert (H0 : Log_info_enabled Sample.nothing = 0) by (apply Hoff; reflexivity).
  split; [exact H0|]. split; [exact (proj1 (Hinfo H0))|].
  destruct (Herror H0) as (_ & _ & Hdata). specialize (Hdata EmptyString eq_refl).
  vm_compute in Hdata. vm_compute. exact Hdata.
Defined.

Lemma print_log_threshold_witness :
  print_log 1 "upnp" "verbose" Sample.nothing = Sample.nothing /\
  fd_data STDERR_FILENO (print_log 0 "upnp" "brief" Sample.nothing) =
    Some ("INFO  [2023-11-14 22:13:20 | upnp] brief" +:+ nl) /\
  Log_info "upnp" "brief" Sample.nothing = Sample.nothing.
Proof.
  destruct (print_log_threshold 1 "upnp" "verbose" Sample.nothing) as (Hoff & _).
  destruct (print_log_threshold 0 "upnp" "brief" Sample.nothing) as (_ & _ & Herr & _).
  split; [apply Hoff; reflexivity|].
  destruct Herr as [Hrun Hinfo]; [vm_compute; discriminate | reflexivity |].
  split; [|exact Hinfo].
  apply (f_equal (fd_data STDERR_FILENO)) in Hrun. vm_compute in Hrun. vm_compute. exact Hrun.
Defined.

Lemma markup_fixed_at_init_witness :
  isatty (log_fd Sample.all_files) (os Sample.all_files) = 0 /\
  Log_color_allowed (perform_all [Call_log_last_playback 0] Sample.all_files) = 0 /\
  isatty (log_fd Sample.terminal_log) (os Sample.terminal_log) = 1 /\
  esc_free
    (Log_line (info_markup_start_ Sample.all_files) (markup_end_ Sample.all_files)
       (strftime_localtime (gettimeofday (os Sample.all_files))) "upnp" "started") = true.
Proof.
  assert (H0 : isatty (log_fd Sample.all_files) (os Sample.all_files) = 0) by reflexivity.
  destruct (markup_fixed_at_init (Some "/var/log/gmrender.log") (Some "/run/last_played")
              (Some "/run/playback") 0 Sample.world [Call_log_last_playback 0] "upnp" "started")
    as (_ & _ & _ & _ & Hplain).
  destruct (markup_fixed_at_init (Some "/var/log/gmrender.log") (Some "/run/last_played")
              (Some "/run/playback") 0 Sample.world [] "upnp" "started")
    as (_ & _ & _ & _ & Hline).
  split; [exact H0|]. split; [exact (proj1 (Hplain H0))|]. split; [reflexivity|].
  destruct (Hline H0) as (_ & _ & _ & Hesc).
  refine (proj1 (Hesc _ _ _)); vm_compute; reflexivity.
Defined.

Lemma playing_time_line_at_level_zero_witness :
  debug_level Sample.nothing = 0 /\ log_fd Sample.nothing < 0 /\
  fd_data STDERR_FILENO (log_playback_duration 0 90000 Sample.nothing) =
    Some ("INFO  [2023-11-14 22:13:20 | transport] Total playing time 25:00:00" +:+ nl).
Proof.
  split; [reflexivity|]. split; [reflexivity|].
  destruct (playing_time_line_at_level_zero 0 90000 Sample.nothing) as (_ & _ & Herr).
  destruct Herr as [Hrun _]; [vm_compute; discriminate | reflexivity |].
  apply (f_equal (fd_data STDERR_FILENO)) in Hrun. vm_compute in Hrun. vm_compute. exact Hrun.
Defined.

(** C1 as the specification states it fails: with a general log that cannot be opened, the
    last-played file could be opened but is left unconfigured. *)
Lemma opens_independently_counterexample :
  ~ opens_independently (Some "/proc/version") (Some "/run/last_played")
      (Some "/run/playback") 0 Sample.world.
Proof.
  intros (_ & Hlp & _). specialize (Hlp eq_refl).
  vm_compute in Hlp. now apply Hlp.
Qed.




(** ** The further theorems at concrete inputs *)

Lemma only_state_files_are_truncated_witness :
  fd_path (os Sample.all_files) (last_played_fd Sample.all_files) <>
    Some "/var/log/gmrender.log" /\
  fd_path (os Sample.all_files) (playback_fd Sample.all_files) <>
    Some "/var/log/gmrender.log" /\
  path_data "/var/log/gmrender.log" (os Sample.all_files) = Some EmptyString /\
  exists added,
    fd_data (log_fd Sample.all_files) (perform_all Terminals.session Sample.all_files) =
    Some (EmptyString +:+ added).
Proof.
  assert (H1 : fd_path (os Sample.all_files) (last_played_fd Sample.all_files) <>
               Some "/var/log/gmrender.log") by (vm_compute; discriminate).
  assert (H2 : fd_path (os Sample.all_files) (playback_fd Sample.all_files) <>
               Some "/var/log/gmrender.log") by (vm_compute; discriminate).
  assert (H3 : path_data "/var/log/gmrender.log" (os Sample.all_files) = Some EmptyString)
    by (vm_compute; reflexivity).
  repeat (split; [assumption|]).
  destruct (only_state_files_are_truncated Terminals.session Sample.all_files
              "/var/log/gmrender.log" EmptyString H1 H2 H3) as (added & _ & Hlog).
  exists added. apply Hlog. vm_compute. reflexivity.
Defined.

Lemma state_files_hold_last_record_witness :
  fd_node (os Sample.all_files) (last_played_fd Sample.all_files) =
    Some ("/run/last_played", Regular EmptyString) /\
  fd_node (os Sample.all_files) (playback_fd Sample.all_files) =
    Some ("/run/playback", Regular EmptyString) /\
  terminated (os Sample.all_files) = false /\
  fd_data (last_played_fd Sample.all_files)
    (perform_all Terminals.session Sample.all_files) =
    Some ("UPNP_LAST_PLAYED='2023-11-14 22:13:20'" +:+ nl) /\
  fd_data (playback_fd Sample.all_files)
    (perform_all Terminals.session Sample.all_files) =
    Some ("UPNP_TOTAL=3725" +:+ nl).
Proof.
  assert (H1 : fd_node (os Sample.all_files) (last_played_fd Sample.all_files) =
               Some ("/run/last_played", Regular EmptyString)) by (vm_compute; reflexivity).
  assert (H2 : fd_node (os Sample.all_files) (playback_fd Sample.all_files) =
               Some ("/run/playback", Regular EmptyString)) by (vm_compute; reflexivity).
  assert (H6 : terminated (os Sample.all_files) = false) by (vm_compute; reflexivity).
  repeat (split; [assumption|]).
  assert (H3 : "/run/last_played" <> "/run/playback") by discriminate.
  assert (H4 : fd_path (os Sample.all_files) (log_target Sample.all_files) <>
               Some "/run/last_played") by (vm_compute; discriminate).
  assert (H5 : fd_path (os Sample.all_files) (log_target Sample.all_files) <>
               Some "/run/playback") by (vm_compute; discriminate).
  assert (H7 : forall playstart,
             In (Call_log_last_playback playstart) Terminals.session ->
             gmtime playstart <> None).
  { intros t Hin. simpl in Hin.
    destruct Hin as [[= <-]|[[=]|[[= <-]|[[=]|[[=]|[]]]]]]; vm_compute; discriminate. }
  pose proof (state_files_hold_last_record Terminals.session Sample.all_files
                "/run/last_played" "/run/playback" EmptyString EmptyString
                H1 H2 H3 H4 H5 H6 H7) as (R1 & R2 & _).
  split.
  - vm_compute in R1. vm_compute. exact R1.
  - vm_compute in R2. vm_compute. exact R2.
Defined.

Lemma successful_Log_init_keeps_files_witness :
  attempt_fails (Some "/var/log/gmrender.log") Sample.world = false /\
  attempt_fails (Some "/run/last_played") Sample.world = false /\
  attempt_fails (Some "/run/playback") Sample.world = false /\
  w_fs (os Sample.all_files) !! "/dev/tty1" = Some (Terminal EmptyString) /\
  w_fs (os Sample.all_files) !! "/run/playback" = Some (Regular EmptyString).
Proof.
  assert (H1 : attempt_fails (Some "/var/log/gmrender.log") Sample.world = false)
    by reflexivity.
  assert (H2 : attempt_fails (Some "/run/last_played") Sample.world = false) by reflexivity.
  assert (H3 : attempt_fails (Some "/run/playback") Sample.world = false) by reflexivity.
  repeat (split; [assumption|]).
  destruct (successful_Log_init_keeps_files _ _ _ 0 Sample.world H1 H2 H3)
    as (_ & Hold & _ & Hnew).
  split.
  - apply Hold. vm_compute. reflexivity.
  - apply Hnew; [vm_compute; reflexivity | right; right; reflexivity].
Defined.

Lemma Log_init_reports_first_failure_witness :
  fd_path Sample.world STDERR_FILENO = Some "/dev/pts/0" /\
  path_data "/dev/pts/0" Sample.world = Some EmptyString /\
  fd_data STDERR_FILENO Sample.terminal_log =
    Some ("Cannot open last played file: Permission denied" +:+ nl).
Proof.
  assert (H1 : fd_path Sample.world STDERR_FILENO = Some "/dev/pts/0") by reflexivity.
  assert (H2 : path_data "/dev/pts/0" Sample.world = Some EmptyString)
    by (vm_compute; reflexivity).
  repeat (split; [assumption|]).
  pose proof (Log_init_reports_first_failure (Some "/dev/tty1") (Some "/proc/version") None
                0 Sample.world "/dev/pts/0" EmptyString H1 H2) as Hrep.
  cbv zeta in Hrep.
  assert (Hff : first_failure (Some "/dev/tty1") (Some "/proc/version") None Sample.world =
                Some ("Cannot open last played file", Some "/proc/version"))
    by (vm_compute; reflexivity).
  rewrite Hff in Hrep. destruct Hrep as [Hrep _].
  vm_compute in Hrep. vm_compute. exact Hrep.
Defined.

Lemma playing_time_fields_add_up_witness :
  INT_MIN <= 3825 - 100 <= INT_MAX /\
  exists hours minutes seconds,
    3600 * hours + 60 * minutes + seconds = 3825 - 100 /\
    Z.abs minutes < 60 /\ Z.abs seconds < 60.
Proof.
  assert (H1 : INT_MIN <= 3825 - 100 <= INT_MAX) by (unfold INT_MIN, INT_MAX; lia).
  split; [exact H1|].
  destruct (playing_time_fields_add_up 100 3825 Sample.all_files H1)
    as (hours & minutes & seconds & _ & Hsum & Hm & Hs & _).
  exists hours, minutes, seconds. auto.
Defined.

Lemma records_accumulate_on_a_terminal_witness :
  fd_node (os Terminals.record_on_terminal) (last_played_fd Terminals.record_on_terminal) =
    Some ("/dev/tty1", Terminal EmptyString) /\
  gmtime 0 = Some (mktm 0 0 0 1 0 70) /\
  gmtime 1700000000 = Some (mktm 20 13 22 14 10 123) /\
  fd_data (last_played_fd Terminals.record_on_terminal)
    (log_last_playback 1700000000 (log_last_playback 0 Terminals.record_on_terminal)) =
    Some ("UPNP_LAST_PLAYED='1970-01-01 00:00:00'" +:+ nl +:+
          "UPNP_LAST_PLAYED='2023-11-14 22:13:20'" +:+ nl).
Proof.
  assert (H1 : fd_node (os Terminals.record_on_terminal)
                 (last_played_fd Terminals.record_on_terminal) =
               Some ("/dev/tty1", Terminal EmptyString)) by (vm_compute; reflexivity).
  assert (H2 : gmtime 0 = Some (mktm 0 0 0 1 0 70)) by (vm_compute; reflexivity).
  assert (H3 : gmtime 1700000000 = Some (mktm 20 13 22 14 10 123))
    by (vm_compute; reflexivity).
  repeat (split; [assumption|]).
  destruct (records_accumulate_on_a_terminal 0 1700000000 _ _ Terminals.record_on_terminal
              "/dev/tty1" EmptyString H1 H2 H3) as (_ & _ & Htwo).
  vm_compute in Htwo. vm_compute. exact Htwo.
Defined.

Lemma terminal_log_lines_are_highlighted_witness :
  isatty (log_fd Terminals.log_on_terminal) (os Terminals.log_on_terminal) = 1 /\
  Log_color_allowed (perform_all Terminals.session Terminals.log_on_terminal) = 1.
Proof.
  assert (H1 : isatty (log_fd Terminals.log_on_terminal) (os Terminals.log_on_terminal) = 1)
    by (vm_compute; reflexivity).
  split; [exact H1|].
  exact (proj1 (terminal_log_lines_are_highlighted (Some "/dev/tty1") None None 0
                  Sample.world Terminals.session "upnp" "started" eq_refl eq_refl H1)).
Defined.
